(** * Paw Paw form filler: the content script

    A shallow embedding of [content.js] (the selector builder, the field
    extractor and the mapping applicator behind the two-message protocol
    [EXTRACT_FORM_FIELDS] / [APPLY_MAPPINGS]) and the properties of it that
    the design document states; then, of the popup and the background
    worker, the parts that compute without the network: the messages they
    build, the reading of the model's answer and of the replies.

    Conventions of the embedding.

    - JavaScript strings are [string]s read as UTF-8 text.  Case mapping
      ([toLowerCase]) and the white space removed by [trim] are JavaScript's
      on the ASCII range; bytes from 128 up belong to non-ASCII characters
      and are left alone by both.
    - Values that travel in a message are JSON values, plus [undefined] for a
      property that is absent.  A number is kept as the text [String(n)]
      prints for it: the script never computes with a number it receives.
    - The page is a list of elements in document order; an element is named
      by its position in that list and carries the attributes and the
      properties the script reads or writes.  A write changes the property
      written and nothing else: what the browser derives from a write (a
      radio group releasing its other members, say) is not the script's
      doing and is not part of the model.  Listeners run by [dispatchEvent]
      are taken not to touch the page.
    - [document.querySelector] reads compound selectors made of a tag,
      [#id], [[attr="value"]] and [:nth-of-type(k)], and comma lists of
      them, by the CSS rules for an HTML document in no-quirks mode: these
      are the selectors the script queries with, and those [buildSelector]
      returns by its first three rules.  Every other selector text (the
      paths of the last rule, with their combinators, among them) is handed
      to [other_selectors], an arbitrary selector engine.  [JSON.parse] is
      treated alike: arrays of plain string literals are parsed here, any
      other text goes to [other_json].
    - Exceptions carry the name JavaScript gives them and a message whose
      wording is the engine's ([message_of]). *)

From Stdlib Require Import String Ascii NArith ZArith List Lia Bool.
From Stdlib Require Import DecimalString DecimalNat DecimalFacts.
From stdpp Require Import base list.
Import ListNotations.
Open Scope string_scope.
Set Warnings "-register-all".

(** ** JavaScript strings and values *)

Module JS.

Definition code (c : ascii) : N := N_of_ascii c.

Definition between (lo hi : N) (c : ascii) : bool :=
  (lo <=? code c)%N && (code c <=? hi)%N.

Definition is_upper : ascii -> bool := between 65 90.
Definition is_lower : ascii -> bool := between 97 122.
Definition is_digit : ascii -> bool := between 48 57.

Definition lower_char (c : ascii) : ascii :=
  if is_upper c then ascii_of_N (code c + 32) else c.

(** [String.prototype.toLowerCase]. *)
Fixpoint toLowerCase (s : string) : string :=
  match s with
  | EmptyString => EmptyString
  | String c r => String (lower_char c) (toLowerCase r)
  end.

(** White space and line terminators of ECMAScript below 128: TAB, LF, VT,
    FF, CR and SPACE. *)
Definition is_space (c : ascii) : bool :=
  between 9 13 c || (code c =? 32)%N.

Fixpoint trimStart (s : string) : string :=
  match s with
  | String c r => if is_space c then trimStart r else s
  | EmptyString => EmptyString
  end.

Fixpoint trimEnd (s : string) : string :=
  match s with
  | EmptyString => EmptyString
  | String c r =>
      match trimEnd r with
      | EmptyString => if is_space c then EmptyString else String c EmptyString
      | r' => String c r'
      end
  end.

(** [String.prototype.trim]. *)
Definition trim (s : string) : string := trimEnd (trimStart s).

(** [s.startsWith(c)] and [s.endsWith(c)] for a one-character needle. *)
Definition startsWith (c : ascii) (s : string) : bool :=
  match s with
  | String a _ => Ascii.eqb a c
  | EmptyString => false
  end.

Fixpoint endsWith (c : ascii) (s : string) : bool :=
  match s with
  | EmptyString => false
  | String a EmptyString => Ascii.eqb a c
  | String _ r => endsWith c r
  end.

(** [s.slice(0, n)]. *)
Fixpoint slice0 (n : nat) (s : string) : string :=
  match n, s with
  | S k, String c r => String c (slice0 k r)
  | _, _ => EmptyString
  end.

(** Values of a message. *)
Inductive value : Type :=
  | Undefined
  | Null
  | Bool (b : bool)
  | Num (printed : string)
  | Str (s : string)
  | Arr (items : list value)
  | Obj (fields : list (string * value)).

(** ToBoolean: what [!v], [v || w] and [filter(Boolean)] test. *)
Definition truthy (v : value) : bool :=
  match v with
  | Undefined | Null => false
  | Bool b => b
  | Num p => negb (String.eqb p "0" || String.eqb p "NaN")
  | Str s => negb (String.eqb s "")
  | Arr _ | Obj _ => true
  end.

(** [v || w] and [v ?? w]. *)
Definition or_else (v w : value) : value := if truthy v then v else w.

Definition nullish (v : value) : bool :=
  match v with Undefined | Null => true | _ => false end.

Definition coalesce (v w : value) : value := if nullish v then w else v.

(** [String(v)].  An array prints its items joined by commas, an absent or
    null item as nothing. *)
Fixpoint ToString (v : value) : string :=
  match v with
  | Undefined => "undefined"
  | Null => "null"
  | Bool true => "true"
  | Bool false => "false"
  | Num p => p
  | Str s => s
  | Arr items =>
      (fix join (l : list value) : string :=
         match l with
         | [] => ""
         | x :: r =>
             let sx := if nullish x then "" else ToString x in
             match r with
             | [] => sx
             | _ :: _ => sx ++ "," ++ join r
             end
         end) items
  | Obj _ => "[object Object]"
  end.

Fixpoint assoc {A : Type} (k : string) (l : list (string * A)) : option A :=
  match l with
  | [] => None
  | (k', a) :: r => if String.eqb k' k then Some a else assoc k r
  end.

(** [v?.key] for the keys the script reads ([type], [mappings], [selector],
    [kind], [value]): none of them is a property of a string, a number, a
    boolean or an array. *)
Definition get (key : string) (v : value) : value :=
  match v with
  | Obj fields => match assoc key fields with Some x => x | None => Undefined end
  | _ => Undefined
  end.

Fixpoint chars (s : string) : list value :=
  match s with
  | EmptyString => []
  | String c r => Str (String c EmptyString) :: chars r
  end.

(** What [for (const m of v)] runs over; [None] when [v] is not iterable. *)
Definition iterate (v : value) : option (list value) :=
  match v with
  | Arr items => Some items
  | Str s => Some (chars s)
  | _ => None
  end.

End JS.

(** ** CSS: [CSS.escape] and the selectors the script builds *)

Module CSS.

Import JS.

Definition dquote : ascii := ascii_of_N 34.
Definition backslash : ascii := ascii_of_N 92.
Definition dash : ascii := ascii_of_N 45.

(** U+FFFD REPLACEMENT CHARACTER, in UTF-8. *)
Definition replacement : string :=
  String (ascii_of_N 239) (String (ascii_of_N 191) (String (ascii_of_N 189) EmptyString)).

Definition hex_digit (n : N) : ascii :=
  if (n <? 10)%N then ascii_of_N (48 + n) else ascii_of_N (87 + n).

(** [c.toString(16)] for a code below 256. *)
Definition hex (c : ascii) : string :=
  let n := code c in
  if (n <? 16)%N then String (hex_digit n) EmptyString
  else String (hex_digit (n / 16)) (String (hex_digit (n mod 16)) EmptyString).

(** "Escape a character as code point": backslash, the code in hexadecimal,
    a space. *)
Definition escape_as_code_point (c : ascii) : string :=
  String backslash (hex c ++ " ").

Definition is_control (c : ascii) : bool :=
  between 1 31 c || (code c =? 127)%N.

(** The characters [CSS.escape] copies: non-ASCII, [-], [_], digits and
    letters. *)
Definition is_name_char (c : ascii) : bool :=
  (128 <=? code c)%N || Ascii.eqb c dash || Ascii.eqb c "_"
  || is_digit c || is_upper c || is_lower c.

(** One step of the serialisation of an identifier (CSSOM); [leading] says
    that a digit here would start the identifier (first character, or second
    after a leading [-]). *)
Definition escape_char (leading : bool) (c : ascii) : string :=
  if (code c =? 0)%N then replacement
  else if is_control c then escape_as_code_point c
  else if leading && is_digit c then escape_as_code_point c
  else if is_name_char c then String c EmptyString
  else String backslash (String c EmptyString).

Fixpoint escape_from (leading : bool) (s : string) : string :=
  match s with
  | EmptyString => EmptyString
  | String c r => escape_char leading c ++ escape_from false r
  end.

(** [CSS.escape(s)]. *)
Definition escape (s : string) : string :=
  match s with
  | EmptyString => EmptyString
  | String c r =>
      if Ascii.eqb c dash && String.eqb r EmptyString
      then String backslash (String dash EmptyString)
      else escape_char true c ++ escape_from (Ascii.eqb c dash) r
  end.

(** *** Selectors *)

Inductive simple : Type :=
  | Id (id : string)
  | Attr (attr value : string)
  | NthOfType (k : nat).

Record compound : Type := Compound { tag : option string; parts : list simple }.

(** A selector list: an element matches when one of the compounds does. *)
Definition selector : Type := list compound.

Definition hex_value (c : ascii) : option N :=
  if is_digit c then Some (code c - 48)%N
  else if between 97 102 c then Some (code c - 87)%N
  else if between 65 70 c then Some (code c - 55)%N
  else None.

(** At most [n] further hexadecimal digits of an escape. *)
Fixpoint hex_run (n : nat) (acc : N) (s : string) : N * string :=
  match n, s with
  | S k, String c r =>
      match hex_value c with
      | Some v => hex_run k (acc * 16 + v) r
      | None => (acc, s)
      end
  | _, _ => (acc, s)
  end.

Definition is_newline (c : ascii) : bool :=
  (code c =? 10)%N || (code c =? 12)%N || (code c =? 13)%N.

(** The character an escape stands for, given what follows the backslash.
    Escapes that leave ASCII, an escaped line break and an escape cut by the
    end of the text are not read here. *)
Definition escaped (s : string) : option (ascii * string) :=
  match s with
  | EmptyString => None
  | String c r =>
      match hex_value c with
      | Some v =>
          let '(n, r') := hex_run 5 v r in
          if (n =? 0)%N || (128 <=? n)%N then None
          else
            match r' with
            | String w r'' =>
                if (code w =? 12)%N || (code w =? 13)%N then None
                else if (code w =? 32)%N || (code w =? 9)%N || (code w =? 10)%N
                     then Some (ascii_of_N n, r'')
                     else Some (ascii_of_N n, r')
            | EmptyString => Some (ascii_of_N n, EmptyString)
            end
      | None =>
          if is_newline c || (code c =? 0)%N then None else Some (c, r)
      end
  end.

(** "Consume a name": name characters and escapes, as far as they go. *)
Fixpoint name (fuel : nat) (s : string) : option (string * string) :=
  match fuel with
  | O => None
  | S k =>
      match s with
      | EmptyString => Some (EmptyString, EmptyString)
      | String c r =>
          if is_name_char c then
            match name k r with
            | Some (n, rest) => Some (String c n, rest)
            | None => None
            end
          else if Ascii.eqb c backslash then
            match escaped r with
            | Some (a, r') =>
                match name k r' with
                | Some (n, rest) => Some (String a n, rest)
                | None => None
                end
            | None => None
            end
          else if (code c =? 0)%N then None
          else Some (EmptyString, s)
      end
  end.

(** The inside of a double-quoted string, up to and without the closing
    quote. *)
Fixpoint quoted (fuel : nat) (s : string) : option (string * string) :=
  match fuel with
  | O => None
  | S k =>
      match s with
      | EmptyString => None
      | String c r =>
          if Ascii.eqb c dquote then Some (EmptyString, r)
          else if Ascii.eqb c backslash then
            match escaped r with
            | Some (a, r') =>
                match quoted k r' with
                | Some (n, rest) => Some (String a n, rest)
                | None => None
                end
            | None => None
            end
          else if is_newline c || (code c =? 0)%N then None
          else
            match quoted k r with
            | Some (n, rest) => Some (String c n, rest)
            | None => None
            end
      end
  end.

Definition is_ident_start (c : ascii) : bool :=
  (128 <=? code c)%N || Ascii.eqb c "_" || is_upper c || is_lower c.

(** Whether the text after [#] starts an identifier, so that the hash token
    is an ID selector. *)
Definition starts_ident (s : string) : bool :=
  match s with
  | String c r =>
      if is_ident_start c || Ascii.eqb c backslash then true
      else if Ascii.eqb c dash then
        match r with
        | String c2 _ => is_ident_start c2 || Ascii.eqb c2 dash || Ascii.eqb c2 backslash
        | EmptyString => false
        end
      else false
  | EmptyString => false
  end.

(** An identifier written without escapes: a tag or an attribute name. *)
Fixpoint plain_rest (s : string) : string * string :=
  match s with
  | String c r =>
      if is_name_char c then let '(n, rest) := plain_rest r in (String c n, rest)
      else (EmptyString, s)
  | EmptyString => (EmptyString, EmptyString)
  end.

Definition plain_ident (s : string) : option (string * string) :=
  match s with
  | String c r =>
      if is_ident_start c then let '(n, rest) := plain_rest r in Some (String c n, rest)
      else None
  | EmptyString => None
  end.

Fixpoint digits (s : string) : string * string :=
  match s with
  | String c r =>
      if is_digit c then let '(n, rest) := digits r in (String c n, rest)
      else (EmptyString, s)
  | EmptyString => (EmptyString, EmptyString)
  end.

(** [strip p s] is what follows the prefix [p] of [s]. *)
Fixpoint strip (p s : string) : option string :=
  match p, s with
  | EmptyString, _ => Some s
  | String a p', String b s' => if Ascii.eqb a b then strip p' s' else None
  | String _ _, EmptyString => None
  end.

(** One [#id], [[attr="value"]] or [:nth-of-type(k)]. *)
Definition part (fuel : nat) (s : string) : option (simple * string) :=
  match s with
  | String "#" r =>
      if starts_ident r then
        match name fuel r with
        | Some (n, rest) => Some (Id n, rest)
        | None => None
        end
      else None
  | String "[" r =>
      match plain_ident r with
      | Some (a, String "=" (String q r1)) =>
          if Ascii.eqb q dquote then
            match quoted fuel r1 with
            | Some (v, String "]" rest) => Some (Attr a v, rest)
            | _ => None
            end
          else None
      | _ => None
      end
  | String ":" r =>
      match strip "nth-of-type(" r with
      | Some r1 =>
          match digits r1 with
          | (String d ds, String ")" rest) =>
              match NilEmpty.uint_of_string (String d ds) with
              | Some u => Some (NthOfType (Nat.of_uint u), rest)
              | None => None
              end
          | _ => None
          end
      | None => None
      end
  | _ => None
  end.

Fixpoint part_list (fuel : nat) (s : string) : option (list simple * string) :=
  match fuel with
  | O => None
  | S k =>
      match s with
      | String c _ =>
          if Ascii.eqb c "#" || Ascii.eqb c "[" || Ascii.eqb c ":" then
            match part (String.length s) s with
            | Some (p, rest) =>
                match part_list k rest with
                | Some (ps, rest') => Some (p :: ps, rest')
                | None => None
                end
            | None => None
            end
          else Some ([], s)
      | EmptyString => Some ([], s)
      end
  end.

Definition parse_compound (s : string) : option (compound * string) :=
  match plain_ident s with
  | Some (t, rest) =>
      match part_list (S (String.length rest)) rest with
      | Some (ps, rest') => Some (Compound (Some t) ps, rest')
      | None => None
      end
  | None =>
      match part_list (S (String.length s)) s with
      | Some (p :: ps, rest') => Some (Compound None (p :: ps), rest')
      | _ => None
      end
  end.

Fixpoint skip_spaces (s : string) : string :=
  match s with
  | String " " r => skip_spaces r
  | _ => s
  end.

Fixpoint parse_list (fuel : nat) (s : string) : option selector :=
  match fuel with
  | O => None
  | S k =>
      match parse_compound s with
      | Some (c, rest) =>
          match skip_spaces rest with
          | EmptyString =>
              match rest with EmptyString => Some [c] | _ => None end
          | String "," r =>
              match parse_list k (skip_spaces r) with
              | Some cs => Some (c :: cs)
              | None => None
              end
          | _ => None
          end
      | None => None
      end
  end.

(** The selectors read here; [None] for every other text. *)
Definition parse (s : string) : option selector :=
  parse_list (S (String.length s)) s.

End CSS.

(** ** The page *)

Module DOM.

Import JS.

(** An [<option>] as the script sees it through [select.options]. *)
Record option_element : Type := Option_
  { o_value : string; o_text : string; o_selected : bool }.

(** An element: [tagName] as the DOM reports it (upper case for HTML), the
    content attributes under their lower-case names, the parent, and the
    properties the script reads ([name] reads as the empty string where the
    element has no such property; the script only tests and escapes it). *)
Record element : Type := Element
  { tagName : string;
    attributes : list (string * string);
    parentElement : option nat;
    innerText : string;
    disabled : bool;
    name : string;
    type : string;
    value : string;
    checked : bool;
    multiple : bool;
    options : list option_element }.

(** The page's elements in document order. *)
Abbreviation document := (list element).

(** [el.getAttribute(a)]; [None] is JavaScript's [null]. *)
Definition getAttribute (a : string) (e : element) : option string :=
  assoc a (attributes e).

(** [(el.getAttribute(a) || "")]. *)
Definition attribute_or_empty (a : string) (e : element) : string :=
  match getAttribute a e with Some v => v | None => "" end.

Definition localName (e : element) : string := toLowerCase (tagName e).

(** An element as the script holds it: its position in the page, which is
    its identity, and its content when it was looked up. *)
Definition node : Type := nat * element.

Definition positions (d : document) : list nat := seq 0 (length d).

(** The elements of the page in document order. *)
Definition nodes (d : document) : list node := combine (positions d) d.

(** [el.parentElement]. *)
Definition parent_node (d : document) (e : element) : option node :=
  match parentElement e with
  | Some p => match d !! p with Some pe => Some (p, pe) | None => None end
  | None => None
  end.

(** [parent.children] for the element at [p]. *)
Definition children (d : document) (p : nat) : list node :=
  List.filter
    (fun n => match parentElement (snd n) with
              | Some q => Nat.eqb q p
              | None => false
              end)
    (nodes d).

(** [el.closest(t)]: the element itself or its nearest ancestor with tag [t]. *)
Fixpoint closest (fuel : nat) (t : string) (d : document) (n : node) : option node :=
  match fuel with
  | O => None
  | S k =>
      if String.eqb (localName (snd n)) t then Some n
      else match parent_node d (snd n) with
           | Some p => closest k t d p
           | None => None
           end
  end.

(** [(el.closest("label")?.innerText || "").trim()]. *)
Definition closest_label_text (d : document) (n : node) : string :=
  match closest (S (length d)) "label" d n with
  | Some l => trim (innerText (snd l))
  | None => ""
  end.

(** How many earlier siblings of the element at [i] have its tag. *)
Definition same_type_before (d : document) (i : nat) : nat :=
  match d !! i with
  | Some e =>
      length
        (List.filter
           (fun j => match d !! j with
                     | Some x =>
                         String.eqb (tagName x) (tagName e)
                         && match parentElement x, parentElement e with
                            | Some p, Some q => Nat.eqb p q
                            | None, None => true
                            | _, _ => false
                            end
                     | None => false
                     end)
           (seq 0 i))
  | None => 0
  end.

(** Attributes whose values a selector compares without regard to ASCII
    case in an HTML document. *)
Definition case_insensitive_attributes : list string :=
  [ "accept"; "accept-charset"; "align"; "alink"; "axis"; "bgcolor";
    "charset"; "checked"; "clear"; "codetype"; "color"; "compact";
    "declare"; "defer"; "dir"; "direction"; "disabled"; "enctype"; "face";
    "frame"; "hreflang"; "http-equiv"; "lang"; "language"; "link"; "media";
    "method"; "multiple"; "nohref"; "noresize"; "noshade"; "nowrap";
    "readonly"; "rel"; "rev"; "rules"; "scope"; "scrolling"; "selected";
    "shape"; "target"; "text"; "type"; "valign"; "valuetype"; "vlink" ].

Definition matches_simple (d : document) (i : nat) (e : element) (s : CSS.simple) : bool :=
  match s with
  | CSS.Id v =>
      match getAttribute "id" e with
      | Some x => String.eqb x v
      | None => false
      end
  | CSS.Attr a v =>
      let a' := toLowerCase a in
      match getAttribute a' e with
      | Some x =>
          if existsb (String.eqb a') case_insensitive_attributes
          then String.eqb (toLowerCase x) (toLowerCase v)
          else String.eqb x v
      | None => false
      end
  | CSS.NthOfType k => Nat.eqb k (S (same_type_before d i))
  end.

Definition matches_compound (d : document) (i : nat) (e : element) (c : CSS.compound) : bool :=
  match CSS.tag c with
  | Some t => String.eqb (toLowerCase t) (localName e)
  | None => true
  end
  && forallb (matches_simple d i e) (CSS.parts c).

Definition matches (sel : CSS.selector) (d : document) (i : nat) : bool :=
  match d !! i with
  | Some e => existsb (matches_compound d i e) sel
  | None => false
  end.

(** What the script does not fix itself: the selector engine and [JSON.parse]
    outside the texts read here, and the wording of the engine's errors. *)
Inductive fault : Type :=
  | NotIterable
  | NotAFunction
  | NullProperty
  | InvalidSelector (sel : string).

Record browser : Type := Browser
  { other_selectors : string -> option (document -> nat -> bool);
    other_json : string -> option JS.value;
    message_of : fault -> string }.

(** The meaning of a selector text: [None] when it is a syntax error. *)
Definition selector_test (b : browser) (sel : string) : option (document -> nat -> bool) :=
  match CSS.parse sel with
  | Some s => Some (matches s)
  | None => other_selectors b sel
  end.

(** [Array.from(document.querySelectorAll(sel))]; [None] when the call
    throws. *)
Definition querySelectorAll (b : browser) (d : document) (sel : string) : option (list node) :=
  match selector_test b sel with
  | Some test => Some (List.filter (fun n => test d (fst n)) (nodes d))
  | None => None
  end.

(** [document.querySelector(sel)]: [None] when it throws, [Some None] for
    [null]. *)
Definition querySelector (b : browser) (d : document) (sel : string) : option (option node) :=
  match querySelectorAll b d sel with
  | Some l => Some (head l)
  | None => None
  end.

(** [document.body]: the first [body] whose parent is the root element. *)
Definition body (d : document) : option node :=
  List.find
    (fun n => String.eqb (localName (snd n)) "body"
              && match parent_node d (snd n) with
                 | Some r => match parentElement (snd r) with
                             | None => true
                             | Some _ => false
                             end
                 | None => false
                 end)
    (nodes d).

(** [a.indexOf(x)], [-1] when [x] is not in [a]. *)
Fixpoint indexOf (a : list node) (x : node) : Z :=
  match a with
  | [] => (-1)%Z
  | y :: r =>
      if Nat.eqb (fst y) (fst x) then 0%Z
      else let k := indexOf r x in if (k <? 0)%Z then (-1)%Z else (k + 1)%Z
  end.

(** A number in a template literal. *)
Definition print (z : Z) : string :=
  if (z <? 0)%Z
  then String CSS.dash (NilEmpty.string_of_uint (Nat.to_uint (Z.abs_nat z)))
  else NilEmpty.string_of_uint (Nat.to_uint (Z.to_nat z)).

(** *** Writes and events *)

Inductive effect : Type :=
  | SetChecked (i : nat) (b : bool)
  | SetValue (i : nat) (v : string)
  | SetSelected (i j : nat) (b : bool)
  | DispatchEvent (i : nat) (event : string).

(** The page and, oldest first, what the script did to it. *)
Record page : Type := Page { doc : document; trace : list effect }.

Definition with_checked (b : bool) (e : element) : element :=
  Element (tagName e) (attributes e) (parentElement e) (innerText e)
          (disabled e) (name e) (type e) (value e) b (multiple e) (options e).

Definition with_value (v : string) (e : element) : element :=
  Element (tagName e) (attributes e) (parentElement e) (innerText e)
          (disabled e) (name e) (type e) v (checked e) (multiple e) (options e).

Definition with_selected (b : bool) (o : option_element) : option_element :=
  Option_ (o_value o) (o_text o) b.

Definition with_option (j : nat) (f : option_element -> option_element) (e : element) : element :=
  Element (tagName e) (attributes e) (parentElement e) (innerText e)
          (disabled e) (name e) (type e) (value e) (checked e) (multiple e)
          (alter f j (options e)).

Definition perform (x : effect) (d : document) : document :=
  match x with
  | SetChecked i b => alter (with_checked b) i d
  | SetValue i v => alter (with_value v) i d
  | SetSelected i j b => alter (with_option j (with_selected b)) i d
  | DispatchEvent _ _ => d
  end.

Definition run (x : effect) (p : page) : page :=
  Page (perform x (doc p)) (trace p ++ [x]).

End DOM.

(** ** The content script *)

Module Content.

Import JS DOM.

(** *** Exceptions and state *)

Record exn : Type := Exn { exn_name : string; exn_message : string }.

Inductive outcome (A : Type) : Type :=
  | Normal (a : A)
  | Throw (e : exn).
Arguments Normal {A} a.
Arguments Throw {A} e.

(** A computation over the page that may throw. *)
Definition M (A : Type) : Type := page -> page * outcome A.

Definition ret {A : Type} (a : A) : M A := fun p => (p, Normal a).

Definition bind {A B : Type} (c : M A) (k : A -> M B) : M B :=
  fun p => match c p with
           | (p', Normal a) => k a p'
           | (p', Throw e) => (p', Throw e)
           end.

Declare Scope script_scope.
Delimit Scope script_scope with script.
Notation "x <- c ;; k" := (bind c (fun x => k))
  (at level 100, c at next level, right associativity) : script_scope.
Notation "c ;;; k" := (bind c (fun _ => k))
  (at level 100, right associativity) : script_scope.

Definition name_of (f : fault) : string :=
  match f with
  | InvalidSelector _ => "SyntaxError"
  | _ => "TypeError"
  end.

Definition error (b : browser) (f : fault) : exn := Exn (name_of f) (message_of b f).

Definition raise {A : Type} (b : browser) (f : fault) : M A :=
  fun p => (p, Throw (error b f)).

(** A computation that only reads the page. *)
Definition read {A : Type} (f : document -> outcome A) : M A :=
  fun p => (p, f (doc p)).

Definition write (x : effect) : M unit := fun p => (run x p, Normal tt).

(** [try { c } catch (e) { h(e) }]. *)
Definition try_catch {A : Type} (c : M A) (h : exn -> M A) : M A :=
  fun p => match c p with
           | (p', Normal a) => (p', Normal a)
           | (p', Throw e) => h e p'
           end.

(** [String(e.message || e)]. *)
Definition error_text (e : exn) : string :=
  if String.eqb (exn_message e) "" then exn_name e else exn_message e.

(** A throwing [querySelectorAll]. *)
Definition query_all (b : browser) (d : document) (sel : string) : outcome (list node) :=
  match querySelectorAll b d sel with
  | Some l => Normal l
  | None => Throw (error b (InvalidSelector sel))
  end.

Definition quote (s : string) : string :=
  String CSS.dquote (s ++ String CSS.dquote "").

(** *** [getLabelText] *)

Definition getLabelText (b : browser) (d : document) (el : node) : outcome string :=
  let by_for :=
    match getAttribute "id" (snd el) with
    | Some id =>
        if String.eqb id "" then Normal None
        else
          match querySelector b d ("label[for=" ++ quote (CSS.escape id) ++ "]") with
          | Some lab => Normal lab
          | None =>
              Throw (error b (InvalidSelector ("label[for=" ++ quote (CSS.escape id) ++ "]")))
          end
    | None => Normal None
    end in
  match by_for with
  | Throw e => Throw e
  | Normal (Some lab) => Normal (trim (innerText (snd lab)))
  | Normal None =>
      match closest (S (length d)) "label" d el with
      | Some p => Normal (trim (innerText (snd p)))
      | None => Normal ""
      end
  end.

(** *** [buildSelector] *)

(** The [while] loop of the fallback: from [cur] up to [form] or the root,
    each level as [tag:nth-of-type(k)], outermost first. *)
Fixpoint path_from (fuel : nat) (d : document) (form : option node) (cur : node)
    (path : list string) : list string :=
  match fuel with
  | O => path
  | S k =>
      if match form with Some f => Nat.eqb (fst f) (fst cur) | None => false end
      then path
      else
        let tag := localName (snd cur) in
        let parent := parent_node d (snd cur) in
        let sibs :=
          match parent with
          | Some p =>
              List.filter (fun x => String.eqb (tagName (snd x)) (tagName (snd cur)))
                          (children d (fst p))
          | None => []
          end in
        let idx := (indexOf sibs cur + 1)%Z in
        let path' := (tag ++ ":nth-of-type(" ++ print idx ++ ")") :: path in
        match parent with
        | Some p => path_from k d form p path'
        | None => path'
        end
  end.

Definition buildSelector (b : browser) (d : document) (el : node) : outcome string :=
  let by_id :=
    match getAttribute "id" (snd el) with
    | Some id => if String.eqb id "" then None else Some ("#" ++ CSS.escape id)
    | None => None
    end in
  match by_id with
  | Some s => Normal s
  | None =>
      let by_name :=
        match getAttribute "name" (snd el) with
        | Some name => if String.eqb name "" then None else Some name
        | None => None
        end in
      match by_name with
      | Some name =>
          let tag := localName (snd el) in
          let type := toLowerCase (attribute_or_empty "type" (snd el)) in
          let plain := tag ++ "[name=" ++ quote (CSS.escape name) ++ "]" in
          if String.eqb type "radio" || String.eqb type "checkbox" then
            match query_all b d plain with
            | Throw e => Throw e
            | Normal group =>
                let idx := indexOf group el in
                if (idx >=? 0)%Z
                then Normal (plain ++ ":nth-of-type(" ++ print (idx + 1) ++ ")")
                else Normal plain
            end
          else Normal plain
      | None =>
          let by_aria :=
            match getAttribute "aria-label" (snd el) with
            | Some aria => if String.eqb aria "" then None else Some aria
            | None => None
            end in
          match by_aria with
          | Some aria =>
              Normal (localName (snd el) ++ "[aria-label=" ++ quote (CSS.escape aria) ++ "]")
          | None =>
              let form :=
                match closest (S (length d)) "form" d el with
                | Some f => Some f
                | None => body d
                end in
              let path := path_from (S (length d)) d form el [] in
              match form with
              | Some f =>
                  let formSel :=
                    if String.eqb (localName (snd f)) "form" then "form" else "body" in
                  Normal (trim (formSel ++ " " ++ String.concat " > " path))
              | None => Throw (error b NullProperty)
              end
          end
      end
  end.

(** *** [extractFields] *)

Record field : Type := Field
  { f_selector : string;
    f_tag : string;
    f_type : string;
    f_name : string;
    f_id : string;
    f_placeholder : string;
    f_label : string;
    f_children : nat;
    f_value : string;
    f_multiple : bool;
    f_checked : bool;
    f_options : option (list (string * string));
    f_radio_group : option (list (string * string)) }.

Definition excluded_types : list string :=
  ["hidden"; "submit"; "button"; "reset"; "file"].

(** The elements [extractFields] describes: [els] in the script. *)
Definition candidates (b : browser) (d : document) : outcome (list node) :=
  match query_all b d "input, textarea, select" with
  | Throw e => Throw e
  | Normal all =>
      Normal
        (List.filter
           (fun el =>
              let t := toLowerCase (attribute_or_empty "type" (snd el)) in
              negb (existsb (String.eqb t) excluded_types))
           (List.filter (fun el => negb (disabled (snd el))) all))
  end.

Definition radio_group (b : browser) (d : document) (el : node)
  : outcome (option (list (string * string))) :=
  if String.eqb (type (snd el)) "radio" && negb (String.eqb (name (snd el)) "") then
    match query_all b d ("input[type=" ++ quote "radio" ++ "][name="
                         ++ quote (CSS.escape (name (snd el))) ++ "]") with
    | Throw e => Throw e
    | Normal rs =>
        Normal (Some (List.map (fun r => (value (snd r), closest_label_text d r)) rs))
    end
  else Normal None.

Definition describe (b : browser) (d : document) (el : node) : outcome field :=
  match buildSelector b d el with
  | Throw e => Throw e
  | Normal selector =>
      match getLabelText b d el with
      | Throw e => Throw e
      | Normal label =>
          match radio_group b d el with
          | Throw e => Throw e
          | Normal group =>
              let e := snd el in
              Normal
                (Field selector
                   (localName e)
                   (toLowerCase (attribute_or_empty "type" e))
                   (attribute_or_empty "name" e)
                   (attribute_or_empty "id" e)
                   (attribute_or_empty "placeholder" e)
                   label
                   (length (children d (fst el)))
                   (slice0 200 (value e))
                   (if String.eqb (localName e) "select" then multiple e else false)
                   (if String.eqb (type e) "checkbox" || String.eqb (type e) "radio"
                    then checked e else false)
                   (if String.eqb (localName e) "select"
                    then Some (List.map (fun o => (o_value o, trim (o_text o))) (options e))
                    else None)
                   group)
          end
      end
  end.

(** [els.map(f)] for an [f] that may throw. *)
Fixpoint map_throwing {A B : Type} (f : A -> outcome B) (l : list A) : outcome (list B) :=
  match l with
  | [] => Normal []
  | x :: r =>
      match f x with
      | Throw e => Throw e
      | Normal y =>
          match map_throwing f r with
          | Throw e => Throw e
          | Normal ys => Normal (y :: ys)
          end
      end
  end.

Definition extractFields (b : browser) (d : document) : outcome (list field) :=
  match candidates b d with
  | Throw e => Throw e
  | Normal els => map_throwing (describe b d) els
  end.

(** *** [JSON.parse] on an array of plain string literals *)

Definition json_space (c : ascii) : bool :=
  (code c =? 32)%N || (code c =? 9)%N || (code c =? 10)%N || (code c =? 13)%N.

Fixpoint json_ws (s : string) : string :=
  match s with
  | String c r => if json_space c then json_ws r else s
  | EmptyString => EmptyString
  end.

(** The characters of a string literal after its opening quote; literals with
    an escape in them are not read here. *)
Fixpoint json_string (s : string) : option (string * string) :=
  match s with
  | EmptyString => None
  | String c r =>
      if Ascii.eqb c CSS.dquote then Some (EmptyString, r)
      else if Ascii.eqb c CSS.backslash || (code c <? 32)%N then None
      else match json_string r with
           | Some (x, rest) => Some (String c x, rest)
           | None => None
           end
  end.

Fixpoint json_items (fuel : nat) (s : string) : option (list string) :=
  match fuel with
  | O => None
  | S k =>
      match s with
      | String q r =>
          if Ascii.eqb q CSS.dquote then
            match json_string r with
            | Some (x, r1) =>
                match json_ws r1 with
                | String "," r2 =>
                    match json_items k (json_ws r2) with
                    | Some xs => Some (x :: xs)
                    | None => None
                    end
                | String "]" EmptyString => Some [x]
                | _ => None
                end
            | None => None
            end
          else None
      | EmptyString => None
      end
  end.

Definition json_string_array (s : string) : option (list string) :=
  match s with
  | String "[" r =>
      match json_ws r with
      | String "]" EmptyString => Some []
      | r' => json_items (String.length r') r'
      end
  | _ => None
  end.

(** [JSON.parse(s)]; [None] when it throws. *)
Definition JSON_parse (b : browser) (s : string) : option JS.value :=
  match json_string_array s with
  | Some l => Some (Arr (List.map Str l))
  | None => other_json b s
  end.

(** *** The [APPLY_MAPPINGS] loop *)

Record tally : Type := Tally { updated : nat; skipped : nat }.

Definition skip (t : tally) : tally := Tally (updated t) (S (skipped t)).
Definition update (t : tally) : tally := Tally (S (updated t)) (skipped t).

(** [v === "true" || v === "yes" || v === "1" || v === "checked" || v === "on"]. *)
Definition truthy_token (v : string) : bool :=
  String.eqb v "true" || String.eqb v "yes" || String.eqb v "1"
  || String.eqb v "checked" || String.eqb v "on".

(** The two events after a write, [input] then [change]. *)
Definition fire (i : nat) : M unit :=
  (write (DispatchEvent i "input") ;;; write (DispatchEvent i "change"))%script.

(** [(m?.kind || "").toLowerCase()]. *)
Definition lower_kind (b : browser) (m : JS.value) : M string :=
  match or_else (get "kind" m) (Str "") with
  | Str s => ret (toLowerCase s)
  | _ => raise b NotAFunction
  end.

(** The value after the [multi_select] step. *)
Definition normalize (b : browser) (kind : string) (raw : JS.value) : JS.value :=
  match raw with
  | Str val =>
      if String.eqb kind "multi_select" then
        let s := trim val in
        if startsWith "[" s && endsWith "]" s then
          match JSON_parse b s with
          | Some (Arr arr) => Arr arr
          | _ => raw
          end
        else raw
      else raw
  | _ => raw
  end.

(** [String(x).trim().toLowerCase()]. *)
Definition token (x : JS.value) : string := toLowerCase (trim (ToString x)).

Definition nonempty (s : string) : bool := negb (String.eqb s "").

Definition wanted (val : JS.value) : list string :=
  match val with
  | Arr items => List.filter nonempty (List.map token items)
  | _ => List.filter nonempty [token (coalesce val (Str ""))]
  end.

Definition indexed_options (e : element) : list (nat * option_element) :=
  combine (seq 0 (length (options e))) (options e).

Definition resolveOne (opts : list (nat * option_element)) (w : string)
  : option (nat * option_element) :=
  match List.find (fun o => String.eqb (toLowerCase (trim (o_value (snd o)))) w) opts with
  | Some o => Some o
  | None => List.find (fun o => String.eqb (toLowerCase (trim (o_text (snd o)))) w) opts
  end.

(** [for (const o of options) o.selected = false]. *)
Fixpoint deselect_all (i : nat) (opts : list (nat * option_element)) : M unit :=
  match opts with
  | [] => ret tt
  | o :: r => (write (SetSelected i (fst o) false) ;;; deselect_all i r)%script
  end.

(** The loop over [wanted] of a multiple select; returns [any]. *)
Fixpoint select_wanted (i : nat) (opts : list (nat * option_element))
    (ws : list string) (any : bool) : M bool :=
  match ws with
  | [] => ret any
  | w :: r =>
      match resolveOne opts w with
      | Some o => (write (SetSelected i (fst o) true) ;;; select_wanted i opts r true)%script
      | None => select_wanted i opts r any
      end
  end.

(** The member of a radio group the value names: by [value] first, then by
    the text of the enclosing label. *)
Definition pick_radio (d : document) (group : list node) (v : string) : option node :=
  match List.find (fun r => String.eqb (toLowerCase (trim (value (snd r)))) v) group with
  | Some r => Some r
  | None => List.find (fun r => String.eqb (toLowerCase (closest_label_text d r)) v) group
  end.

(** [String(val ?? "").trim().toLowerCase()]. *)
Definition lowered (val : JS.value) : string :=
  toLowerCase (trim (ToString (coalesce val (Str "")))).

(** The checkbox branch. *)
Definition apply_checkbox (i : nat) (val : JS.value) (t : tally) : M tally :=
  let v := lowered val in
  (write (SetChecked i (truthy_token v)) ;;; fire i ;;; ret (update t))%script.

(** The radio branch. *)
Definition apply_radio (b : browser) (el : node) (val : JS.value) (t : tally) : M tally :=
  let i := fst el in
  let e := snd el in
  let v := lowered val in
  (pick <- (if negb (String.eqb (name e) "") then
              read (fun d =>
                match query_all b d ("input[type=" ++ quote "radio" ++ "][name="
                                     ++ quote (CSS.escape (name e)) ++ "]") with
                | Throw x => Throw x
                | Normal group => Normal (pick_radio d group v)
                end)
            else ret None) ;;
   match pick with
   | Some r => write (SetChecked (fst r) true) ;;; fire (fst r) ;;; ret (update t)
   | None =>
       if truthy_token v
       then write (SetChecked i true) ;;; fire i ;;; ret (update t)
       else ret (skip t)
   end)%script.

(** The select branch. *)
Definition apply_select (el : node) (val : JS.value) (t : tally) : M tally :=
  let i := fst el in
  let e := snd el in
  match wanted val with
  | [] => ret (skip t)
  | w0 :: ws =>
      let opts := indexed_options e in
      if multiple e then
        (deselect_all i opts ;;;
         any <- select_wanted i opts (w0 :: ws) false ;;
         if any : bool then fire i ;;; ret (update t) else ret (skip t))%script
      else
        match resolveOne opts w0 with
        | None => ret (skip t)
        | Some o =>
            (write (SetValue i (o_value (snd o))) ;;; fire i ;;; ret (update t))%script
        end
  end.

(** The default branch: text-like inputs and [textarea]. *)
Definition apply_text (i : nat) (val : JS.value) (t : tally) : M tally :=
  let textValue := if nullish val then "" else ToString val in
  (write (SetValue i textValue) ;;; fire i ;;; ret (update t))%script.

(** The body of the loop once the selector has resolved to [el]: the branch
    is chosen by the element's [type] attribute and tag. *)
Definition apply_to (b : browser) (kind : string) (raw : JS.value) (el : node)
    (t : tally) : M tally :=
  let tag := localName (snd el) in
  let type := toLowerCase (attribute_or_empty "type" (snd el)) in
  if String.eqb type "file" then ret (skip t)
  else
    let val := normalize b kind raw in
    if String.eqb type "checkbox" then apply_checkbox (fst el) val t
    else if String.eqb type "radio" then apply_radio b el val t
    else if String.eqb tag "select" then apply_select el val t
    else apply_text (fst el) val t.

(** One turn of [for (const m of mappings)]. *)
Definition apply_one (b : browser) (m : JS.value) (t : tally) : M tally :=
  let sel := get "selector" m in
  let raw := get "value" m in
  (kind <- lower_kind b m ;;
   if negb (truthy sel) then ret (skip t)
   else
     found <- read (fun d => Normal (querySelector b d (ToString sel))) ;;
     match found with
     | Some (Some el) => apply_to b kind raw el t
     | _ => ret (skip t)
     end)%script.

Fixpoint apply_all (b : browser) (ms : list JS.value) (t : tally) : M tally :=
  match ms with
  | [] => ret t
  | m :: r => (t' <- apply_one b m t ;; apply_all b r t')%script
  end.

(** *** The message listener *)

Inductive response : Type :=
  | Fields (fields : list field)
  | Counts (updated skipped : nat)
  | Error (error : string).

(** [v === s] for a string literal [s]. *)
Definition is_literally (s : string) (v : JS.value) : bool :=
  match v with
  | Str x => String.eqb x s
  | _ => false
  end.

(** What stands inside [try]: the response handed to [sendResponse], if any. *)
Definition listener_body (b : browser) (msg : JS.value) : M (option response) :=
  if is_literally "EXTRACT_FORM_FIELDS" (get "type" msg) then
    (fields <- read (extractFields b) ;; ret (Some (Fields fields)))%script
  else if is_literally "APPLY_MAPPINGS" (get "type" msg) then
    match iterate (or_else (get "mappings" msg) (Arr [])) with
    | Some ms =>
        (t <- apply_all b ms (Tally 0 0) ;;
         ret (Some (Counts (updated t) (skipped t))))%script
    | None => raise b NotIterable
    end
  else ret None.

Definition onMessage (b : browser) (msg : JS.value) : M (option response) :=
  try_catch (listener_body b msg)
            (fun e => ret (Some (Error (error_text e)))).

(** *** [setValue] *)





End Content.

(** ** The background worker: from the model's answer to the mappings *)

Module Background.

Import JS DOM Content.

(** [new Error(text)]. *)
Definition failure (text : string) : exn := Exn "Error" text.

(** *** [buildSchema] *)

Definition string_schema : JS.value := Obj [("type", Str "string")].

Definition buildSchema : JS.value :=
  Obj [ ("type", Str "object");
        ("additionalProperties", Bool false);
        ("properties",
         Obj [ ("mappings",
                Obj [ ("type", Str "array");
                      ("items",
                       Obj [ ("type", Str "object");
                             ("additionalProperties", Bool false);
                             ("properties",
                              Obj [ ("selector", string_schema);
                                    ("kind", string_schema);
                                    ("value", string_schema) ]);
                             ("required",
                              Arr [Str "selector"; Str "kind"; Str "value"]) ]) ]) ]);
        ("required", Arr [Str "mappings"]) ].

(** *** [callOpenAI]: the document part of the request *)

(** [s.split(sep)] for a one-character separator. *)
Fixpoint split (sep : ascii) (s : string) : list string :=
  match s with
  | EmptyString => [EmptyString]
  | String c r =>
      if Ascii.eqb c sep then EmptyString :: split sep r
      else match split sep r with
           | x :: xs => String c x :: xs
           | [] => [String c EmptyString]
           end
  end.

(** [{ apiKey, ...msg.payload }], the argument the listener calls
    [callOpenAI] with: a key of the payload hides the [apiKey] written before
    the spread.  Only named keys are read from it. *)
Definition call_arguments (apiKey msg : JS.value) : JS.value :=
  Obj (match get "payload" msg with
       | Obj fields => fields
       | _ => []
       end ++ [("apiKey", apiKey)]).

(** [(docfilename || "").split(".").pop().toLowerCase()]. *)
Definition ext (b : browser) (args : JS.value) : outcome string :=
  match or_else (get "docfilename" args) (Str "") with
  | Str s => Normal (toLowerCase (List.last (split "." s) EmptyString))
  | _ => Throw (error b NotAFunction)
  end.

Definition mime (ext : string) : string :=
  if String.eqb ext "doc" then "application/msword"
  else if String.eqb ext "docx"
       then "application/vnd.openxmlformats-officedocument.wordprocessingml.document"
       else "application/pdf".

(** The [input_file] item of the request body. *)
Definition input_file (b : browser) (args : JS.value) : outcome JS.value :=
  match ext b args with
  | Throw e => Throw e
  | Normal x =>
      Normal
        (Obj [ ("type", Str "input_file");
               ("filename", or_else (get "docfilename" args) (Str "document"));
               ("file_data",
                Str ("data:" ++ mime x ++ ";base64,"
                     ++ ToString (get "docBase64" args))) ])
  end.

(** *** [callOpenAI]: reading the response *)

(** [i?.content || []], as [flatMap] takes it: the items of an array, any
    other value as one item. *)
Definition content_of (i : JS.value) : list JS.value :=
  match or_else (get "content" i) (Arr []) with
  | Arr items => items
  | v => [v]
  end.

(** [outText]: [data.output_text] when it is a non-empty string, else the
    [text] of the first content item whose type is [output_text], else the
    empty string. *)
Definition outText (b : browser) (data : JS.value) : outcome JS.value :=
  match get "output_text" data with
  | Str (String c r) => Normal (Str (String c r))
  | _ =>
      match get "output" data with
      | Undefined | Null => Normal (Str "")
      | Arr items =>
          match List.find (fun c => is_literally "output_text" (get "type" c))
                          (flat_map content_of items) with
          | Some c => Normal (or_else (get "text" c) (Str ""))
          | None => Normal (Str "")
          end
      | _ => Throw (error b NotAFunction)
      end
  end.

(** What [filter] keeps: [m && typeof m.selector === "string" &&
    typeof m.value !== "undefined"]. *)
Definition kept (m : JS.value) : bool :=
  truthy m
  && match get "selector" m with Str _ => true | _ => false end
  && match get "value" m with Undefined => false | _ => true end.

(** [{ selector: m.selector, kind: m.kind, value: m.value }]. *)
Definition plain_mapping (m : JS.value) : JS.value :=
  Obj [ ("selector", get "selector" m);
        ("kind", get "kind" m);
        ("value", get "value" m) ].

(** The normalized mappings of a parsed answer. *)
Definition mappings (parsed : JS.value) : list JS.value :=
  match get "mappings" parsed with
  | Arr items => List.map plain_mapping (List.filter kept items)
  | _ => []
  end.

(** From [outText] to what [callOpenAI] returns. *)
Definition read_answer (b : browser) (outText : JS.value) : outcome JS.value :=
  if negb (truthy outText) then Throw (failure "No JSON output from model.")
  else
    match JSON_parse b (ToString outText) with
    | None => Throw (failure "Model returned non-JSON.")
    | Some parsed => Normal (Obj [("mappings", Arr (mappings parsed))])
    end.

(** The end of [callOpenAI], from the body [data] of a successful response,
    and what the listener sends back: the result, or [{ error }] for whatever
    was thrown. *)
Definition answer (b : browser) (data : JS.value) : JS.value :=
  match
    match outText b data with
    | Throw e => Throw e
    | Normal text => read_answer b text
    end
  with
  | Normal res => res
  | Throw e => Obj [("error", Str (error_text e))]
  end.

End Background.

(** ** The popup: what it sends and what it makes of the replies *)

Module Popup.

Import JS DOM Content.

(** [s.indexOf(c)] for a one-character needle, [-1] when [c] is not in [s]. *)
Fixpoint indexOf_char (c : ascii) (s : string) : Z :=
  match s with
  | EmptyString => (-1)%Z
  | String a r =>
      if Ascii.eqb a c then 0%Z
      else let k := indexOf_char c r in if (k <? 0)%Z then (-1)%Z else (k + 1)%Z
  end.

(** [s.slice(n)]. *)
Fixpoint slice_from (n : nat) (s : string) : string :=
  match n, s with
  | S k, String _ r => slice_from k r
  | _, _ => s
  end.

(** The [onload] handler of [readFileAsBase64]: what the promise resolves
    to, given [r.result]. *)
Definition readFileAsBase64 (result : JS.value) : string :=
  let s := ToString (or_else result (Str "")) in
  let comma := indexOf_char "," s in
  if (comma >=? 0)%Z then slice_from (Z.to_nat (comma + 1)) s else s.

(** The message that asks the background worker for mappings. *)
Definition map_fields_message
    (docBase64 fileName pageUrl fields screenshotDataUrl userRules : JS.value)
  : JS.value :=
  Obj [ ("type", Str "OPENAI_MAP_FIELDS");
        ("payload",
         Obj [ ("docBase64", docBase64);
               ("docFilename", or_else fileName (Str "document"));
               ("pageUrl", pageUrl);
               ("fields", fields);
               ("screenshotDataUrl", screenshotDataUrl);
               ("userRules", userRules) ]) ].

(** [if (!pageInfo?.fields?.length) throw ...] on the content script's reply
    to [EXTRACT_FORM_FIELDS]; [None] is no reply at all. *)
Definition fields_of (pageInfo : option response) : outcome (list field) :=
  match pageInfo with
  | Some (Fields (f :: fs)) => Normal (f :: fs)
  | _ => Throw (Background.failure "No fillable fields found on page.")
  end.

(** [x?.length] of a value, as far as its truth goes. *)
Definition has_length (v : JS.value) : bool :=
  match v with
  | Arr items => negb (Nat.eqb (length items) 0)
  | Str s => negb (String.eqb s "")
  | Obj _ => truthy (get "length" v)
  | _ => false
  end.

(** The two tests on the background worker's reply; what is returned is
    [result.mappings]. *)
Definition mappings_of_result (result : JS.value) : outcome JS.value :=
  if truthy (get "error" result)
  then Throw (Background.failure (ToString (get "error" result)))
  else if has_length (get "mappings" result) then Normal (get "mappings" result)
  else Throw (Background.failure "No mappings returned.").

(** The message that asks the content script to fill the page. *)
Definition apply_message (mappings : JS.value) : JS.value :=
  Obj [("type", Str "APPLY_MAPPINGS"); ("mappings", mappings)].

(** A counter in the last status line: [fillRes?.updated || 0]. *)
Definition counter (n : nat) : string := DOM.print (Z.of_nat n).

(** The end of the click handler, from the content script's reply to
    [APPLY_MAPPINGS]: the status line, or the error thrown. *)
Definition status_of (fillRes : option response) : outcome string :=
  match fillRes with
  | Some (Error e) =>
      if String.eqb e "" then Normal "Done. Updated: 0, Skipped: 0"
      else Throw (Background.failure e)
  | Some (Counts u s) =>
      Normal ("Done. Updated: " ++ counter u ++ ", Skipped: " ++ counter s)
  | _ => Normal "Done. Updated: 0, Skipped: 0"
  end.

(** What [catch] shows for a thrown [e]: [String(e.message || e)]. *)
Definition shown (o : outcome string) : string :=
  match o with
  | Normal s => s
  | Throw e => error_text e
  end.

End Popup.


(** ** Notions the properties are stated with *)

Module Spec.

Import JS DOM Content.

(** Whether the selector of [m] is present and resolves to an element of [d]. *)
Definition resolves (b : browser) (d : document) (m : JS.value) : bool :=
  truthy (get "selector" m)
  && match querySelector b d (ToString (get "selector" m)) with
     | Some (Some _) => true
     | _ => false
     end.

(** How many mappings of a batch resolve, each on the page as its turn finds
    it. *)
Fixpoint resolvable (b : browser) (ms : list JS.value) (t : tally) (p : page) : nat :=
  match ms with
  | [] => 0
  | m :: r =>
      (if resolves b (doc p) m then 1 else 0)
      + match apply_one b m t p with
        | (p', Normal t') => resolvable b r t' p'
        | (_, Throw _) => 0
        end
  end.

(** The declared kind of a mapping, lower-cased, when it is a string or is
    missing: the kinds of the data model. *)
Definition kind_of (m : JS.value) : option string :=
  match or_else (get "kind" m) (Str "") with
  | Str s => Some (toLowerCase s)
  | _ => None
  end.


(** The [type] attribute the applicator dispatches on. *)
Definition type_attribute (e : element) : string :=
  toLowerCase (attribute_or_empty "type" e).

(** What a selector engine reads back from [CSS.escape c]: the character
    itself, except that U+0000 has become U+FFFD. *)
Definition sanitize_char (c : ascii) : string :=
  if (code c =? 0)%N then CSS.replacement else String c EmptyString.

Fixpoint sanitize (s : string) : string :=
  match s with
  | EmptyString => EmptyString
  | String c r => sanitize_char c ++ sanitize r
  end.

(** Whether U+0000 occurs in [s]. *)
Fixpoint has_nul (s : string) : bool :=
  match s with
  | EmptyString => false
  | String c r => (code c =? 0)%N || has_nul r
  end.


(** All elements with tag [input] and [name] attribute [n], in document
    order. *)
Definition name_group (d : document) (n : string) : list node :=
  List.filter
    (fun x => String.eqb (localName (snd x)) "input"
              && match getAttribute "name" (snd x) with
                 | Some v => String.eqb v n
                 | None => false
                 end)
    (nodes d).

(** The radio inputs whose [name] attribute is [n], in document order. *)
Definition radio_group_of (d : document) (n : string) : list node :=
  List.filter
    (fun x => String.eqb (localName (snd x)) "input"
              && String.eqb (type_attribute (snd x)) "radio"
              && match getAttribute "name" (snd x) with
                 | Some v => String.eqb v n
                 | None => false
                 end)
    (nodes d).

(** What [extractFields] keeps: an [input], [textarea] or [select] that is
    not disabled and whose [type] attribute is none of the excluded ones. *)
Definition fillable (e : element) : bool :=
  (String.eqb (localName e) "input" || String.eqb (localName e) "textarea"
   || String.eqb (localName e) "select")
  && negb (disabled e)
  && negb (existsb (String.eqb (type_attribute e)) excluded_types).


(** A radio input without [id] whose [name] attribute is [n]. *)
Definition radio_named (n : string) (e : element) : Prop :=
  localName e = "input" /\ type_attribute e = "radio"
  /\ getAttribute "id" e = None /\ getAttribute "name" e = Some n.

(** The selector [buildSelector] gives the member [el] of the group [g] of
    the name [n]: [input[name="n"]:nth-of-type(i+1)]. *)
Definition group_selector (g : list node) (n : string) (el : node) : string :=
  ("input[name=" ++ quote (CSS.escape n) ++ "]")
  ++ ":nth-of-type(" ++ print (indexOf g el + 1) ++ ")".

(** A browser whose selector engine and [JSON.parse] know nothing beyond
    what is read here, and whose errors carry no message. *)
Definition plain_browser : browser :=
  Browser (fun _ => None) (fun _ => None) (fun _ => "").

(** An element with the given tag, attributes and parent, and properties at
    their defaults. *)
Definition plain_element (t : string) (attrs : list (string * string))
    (parent : option nat) : element :=
  Element t attrs parent "" false
          (match assoc "name" attrs with Some v => v | None => "" end)
          (match assoc "type" attrs with Some v => toLowerCase v | None => "text" end)
          (match assoc "value" attrs with Some v => v | None => "" end)
          false false [].


(** *** Pages the properties are tried on *)

(** [<input id="" name="q">] alone. *)
Definition empty_id_page : document :=
  [plain_element "INPUT" [("id", ""); ("name", "q")] None].

(** An id with U+0000 in it: [a], U+0000, [b]. *)
Definition nul_id : string := String "a" (String zero (String "b" EmptyString)).

Definition nul_id_page : document :=
  [plain_element "INPUT" [("id", nul_id)] None].

(** [<input id="email">] in a body. *)
Definition email_page : document :=
  [ plain_element "HTML" [] None;
    plain_element "BODY" [] (Some 0);
    plain_element "INPUT" [("id", "email")] (Some 1) ].

(** Two radios of one name, each inside a label of its own. *)
Definition labelled_radios : document :=
  [ plain_element "HTML" [] None;
    plain_element "BODY" [] (Some 0);
    plain_element "LABEL" [] (Some 1);
    plain_element "INPUT" [("type", "radio"); ("name", "g"); ("value", "a")] (Some 2);
    plain_element "LABEL" [] (Some 1);
    plain_element "INPUT" [("type", "radio"); ("name", "g"); ("value", "b")] (Some 4) ].

(** Two radios of one name, the only inputs of a body. *)
Definition sibling_radios : document :=
  [ plain_element "HTML" [] None;
    plain_element "BODY" [] (Some 0);
    plain_element "INPUT" [("type", "radio"); ("name", "g"); ("value", "a")] (Some 1);
    plain_element "INPUT" [("type", "radio"); ("name", "g"); ("value", "b")] (Some 1) ].

(** The node at position [i] of a page known to have one there. *)
Definition node_at (d : document) (i : nat) : node :=
  (i, nth i d (plain_element "" [] None)).





(** *** What a run adds to the trace *)

(** The page after the effects [xs], in order. *)
Definition replay (xs : list effect) (d : document) : document :=
  fold_left (fun d x => perform x d) xs d.

(** [c] is a computation whose every run appends to the trace effects that
    satisfy [P], and changes the page by these effects only. *)
Definition adds {A : Type} (P : effect -> Prop) (c : M A) : Prop :=
  forall p p' o, c p = (p', o) ->
    exists xs, p' = Page (replay xs (doc p)) (trace p ++ xs) /\ Forall P xs.

(** An effect that, if it clears [checked], clears it on an element of [d]
    whose type is [checkbox]. *)
Definition clears_checkbox_only (d : document) (x : effect) : Prop :=
  match x with
  | SetChecked j false => exists e, d !! j = Some e /\ type_attribute e = "checkbox"
  | _ => True
  end.

(** An effect of the radio branch: [checked = true], or an event. *)
Definition checks_or_fires (x : effect) : Prop :=
  match x with
  | SetChecked _ c => c = true
  | DispatchEvent _ _ => True
  | _ => False
  end.

(** An effect that leaves every [checked] alone. *)
Definition leaves_checked (x : effect) : Prop :=
  match x with
  | SetChecked _ _ => False
  | _ => True
  end.


(** *** The select branch on a multiple select *)

(** One [selected = false] per option, in order. *)
Definition deselections (i : nat) (opts : list (nat * option_element)) : list effect :=
  List.map (fun o => SetSelected i (fst o) false) opts.

(** One [selected = true] per wanted token that resolves, on the option it
    resolves to. *)
Definition selections (i : nat) (opts : list (nat * option_element)) (ws : list string)
  : list effect :=
  flat_map (fun w => match resolveOne opts w with
                     | Some o => [SetSelected i (fst o) true]
                     | None => []
                     end) ws.

Definition any_resolved (opts : list (nat * option_element)) (ws : list string) : bool :=
  existsb (fun w => match resolveOne opts w with Some _ => true | None => false end) ws.


Definition events (i : nat) : list effect :=
  [DispatchEvent i "input"; DispatchEvent i "change"].





(** *** Pages and messages for the applicator *)

Definition mapping (selector kind value : string) : JS.value :=
  Obj [("selector", Str selector); ("kind", Str kind); ("value", Str value)].

Definition apply_message (ms : list JS.value) : JS.value :=
  Obj [("type", Str "APPLY_MAPPINGS"); ("mappings", Arr ms)].




(** The page of the design document's scenario: a text input, two radios
    and a select, with a checkbox added. *)
Definition signup_page : document :=
  [ plain_element "HTML" [] None;
    plain_element "BODY" [] (Some 0);
    plain_element "INPUT" [("id", "name")] (Some 1);
    plain_element "INPUT" [("type", "radio"); ("name", "sex"); ("value", "M")] (Some 1);
    plain_element "INPUT" [("type", "radio"); ("name", "sex"); ("value", "F")] (Some 1);
    Element "SELECT" [("id", "country")] (Some 1)
            "" false "" "select-one" "" false false
            [ Option_ "US" "United States" false ];
    plain_element "INPUT" [("type", "checkbox"); ("id", "news")] (Some 1) ].







Definition extract_message : JS.value := Obj [("type", Str "EXTRACT_FORM_FIELDS")].



(** *** Resolution before the batch *)





(** *** Selectors by attribute and by path *)

(** The elements with tag [t] whose attribute [a] is [v], in document order. *)
Definition attribute_group (d : document) (t a v : string) : list node :=
  List.filter
    (fun x => String.eqb (localName (snd x)) t
              && match getAttribute a (snd x) with
                 | Some w => String.eqb w v
                 | None => false
                 end)
    (nodes d).

(** The tags of form controls. *)
Definition control_tag (t : string) : Prop :=
  t = "input" \/ t = "textarea" \/ t = "select".

(** [tag[attr="..."]], as [buildSelector] writes it. *)
Definition attribute_selector (t a v : string) : string :=
  t ++ "[" ++ a ++ "=" ++ quote (CSS.escape v) ++ "]".


(** The number the fallback of [buildSelector] is shown to write for [n]: one
    more than the count of earlier siblings with the tag of [n], and 0 for an
    element without parent. *)
Definition level_index (d : document) (n : node) : nat :=
  match parent_node d (snd n) with
  | Some _ => S (same_type_before d (fst n))
  | None => 0
  end.

Definition segment (d : document) (n : node) : string :=
  localName (snd n) ++ ":nth-of-type(" ++ print (Z.of_nat (level_index d n)) ++ ")".

(** [cur] and its ancestors, innermost first, up to and without [form]. *)
Fixpoint climb (fuel : nat) (d : document) (form : option node) (cur : node) : list node :=
  match fuel with
  | O => []
  | S k =>
      if match form with Some f => Nat.eqb (fst f) (fst cur) | None => false end
      then []
      else cur :: match parent_node d (snd cur) with
                  | Some p => climb k d form p
                  | None => []
                  end
  end.

(** [el.closest("form") || document.body]. *)
Definition enclosure (d : document) (el : node) : option node :=
  match closest (S (length d)) "form" d el with
  | Some f => Some f
  | None => body d
  end.

(** An element [buildSelector] can only describe by a path: no [id], [name]
    or [aria-label] to speak of. *)
Definition anonymous (e : element) : bool :=
  String.eqb (attribute_or_empty "id" e) ""
  && String.eqb (attribute_or_empty "name" e) ""
  && String.eqb (attribute_or_empty "aria-label" e) "".

(** *** Events, and what stays as it was *)

(** The events of a trace, in order: target and name. *)
Definition dispatched (xs : list effect) : list (nat * string) :=
  flat_map (fun x => match x with
                     | DispatchEvent i ev => [(i, ev)]
                     | _ => []
                     end) xs.

(** [input] then [change] on each target in turn. *)
Definition announced (targets : list nat) : list (nat * string) :=
  flat_map (fun i => [(i, "input"); (i, "change")]) targets.


(** The element a radio mapping checks: the member of the group its value
    names, else the radio itself for a truthy word. *)
Definition radio_target (d : document) (el : node) (v : string) : option nat :=
  match (if negb (String.eqb (name (snd el)) "")
         then pick_radio d (radio_group_of d (sanitize (name (snd el)))) v
         else None) with
  | Some r => Some (fst r)
  | None => if truthy_token v then Some (fst el) else None
  end.

(** What a turn does with the events: a pair on one target when the mapping
    is counted as updated, nothing otherwise. *)
Definition turn_announces (t : tally) (p : page) (r : page * outcome tally) : Prop :=
  exists xs targets,
    fst r = Page (replay xs (doc p)) (trace p ++ xs)
    /\ dispatched xs = announced targets
    /\ forall t', snd r = Normal t' -> updated t' = updated t + length targets.


(** *** The answer of the model *)

(** A mapping as the applicator needs it: a string for selector, a value
    that is there. *)
Definition usable (m : JS.value) : Prop :=
  (exists s, get "selector" m = Str s) /\ get "value" m <> Undefined.

(** Validation against a schema made of [type] ([object], [array] or
    [string]), [properties], [required], [additionalProperties] and [items],
    the part of JSON Schema that [buildSchema] uses. *)
Fixpoint conforms (fuel : nat) (schema v : JS.value) : bool :=
  match fuel with
  | O => false
  | S k =>
      if is_literally "string" (get "type" schema) then
        match v with Str _ => true | _ => false end
      else if is_literally "array" (get "type" schema) then
        match v with
        | Arr items => forallb (conforms k (get "items" schema)) items
        | _ => false
        end
      else if is_literally "object" (get "type" schema) then
        match v with
        | Obj fields =>
            forallb (fun r => match assoc (ToString r) fields with
                              | Some _ => true
                              | None => false
                              end)
                    (match get "required" schema with Arr rs => rs | _ => [] end)
            && forallb (fun kv =>
                          match get (fst kv) (get "properties" schema) with
                          | Undefined =>
                              match get "additionalProperties" schema with
                              | Bool false => false
                              | _ => true
                              end
                          | sub => conforms k sub (snd kv)
                          end)
                       fields
        | _ => false
        end
      else false
  end.

(** A mapping as the schema has it: three strings. *)
Definition three_strings (m : JS.value) : Prop :=
  exists s k v, get "selector" m = Str s /\ get "kind" m = Str k /\ get "value" m = Str v.

(** Whether [c] occurs in [s]. *)
Fixpoint occurs (c : ascii) (s : string) : bool :=
  match s with
  | EmptyString => false
  | String a r => Ascii.eqb a c || occurs c r
  end.


(** *** More pages and messages *)

(** A form with a named text input, a select known by its [aria-label], and
    two inputs that can only be told by their place. *)
Definition contact_page : document :=
  [ plain_element "HTML" [] None;
    plain_element "BODY" [] (Some 0);
    plain_element "FORM" [] (Some 1);
    plain_element "INPUT" [("name", "email")] (Some 2);
    Element "SELECT" [("aria-label", "Country")] (Some 2)
            "" false "" "select-one" "" false false
            [ Option_ "US" "United States" false ];
    plain_element "DIV" [] (Some 2);
    plain_element "INPUT" [] (Some 5);
    plain_element "INPUT" [] (Some 5) ].




(** A mapping whose kind is a number. *)
Definition numeric_kind_mapping : JS.value :=
  Obj [("selector", Str "#news"); ("kind", Num "5"); ("value", Str "yes")].

(** An answer of the model that is valid against the schema. *)
Definition valid_answer : JS.value :=
  Obj [("mappings", Arr [mapping "#name" "text" "Alice";
                         mapping "#news" "checkbox" "true"])].



(** *** What the applicator spares *)

(** The element an effect is about. *)
Definition target (x : effect) : nat :=
  match x with
  | SetChecked i _ | SetValue i _ | SetSelected i _ _ | DispatchEvent i _ => i
  end.

(** An effect on an element of [d] that is no file input. *)
Definition spares_files (d : document) (x : effect) : Prop :=
  exists e, d !! target x = Some e /\ type_attribute e <> "file".

(** *** Filling twice *)








End Spec.

(** ** Selectors: escaping and reading back *)

Section Escaping.

Import JS CSS Spec.

Lemma append_assoc (a b c : string) : (a ++ b) ++ c = a ++ (b ++ c).
Proof. induction a as [|x a IH]; simpl; [reflexivity|]. rewrite IH. reflexivity. Qed.

Lemma length_append (a b : string) :
  String.length (a ++ b) = String.length a + String.length b.
Proof. induction a as [|x a IH]; simpl; [reflexivity|]. rewrite IH. reflexivity. Qed.

Lemma sanitize_without_nul s : has_nul s = false -> sanitize s = s.
Proof.
  induction s as [|c r IH]; simpl; [reflexivity|].
  intros H. apply orb_false_iff in H. destruct H as [H1 H2].
  unfold sanitize_char. rewrite H1, IH by assumption. reflexivity.
Qed.

Ltac evaluate_escape :=
  match goal with
  | |- context [escape_char ?l ?c] =>
      let e := eval vm_compute in (escape_char l c) in
      let s := eval vm_compute in (sanitize_char c) in
      change (escape_char l c) with e; change (sanitize_char c) with s
  end.

(** *** Quoted strings *)

Lemma quoted_S k c r :
  quoted (S k) (String c r) =
    if Ascii.eqb c dquote then Some (EmptyString, r)
    else if Ascii.eqb c backslash then
      match escaped r with
      | Some (a, r') =>
          match quoted k r' with
          | Some (n, rest) => Some (String a n, rest)
          | None => None
          end
      | None => None
      end
    else if is_newline c || (code c =? 0)%N then None
    else
      match quoted k r with
      | Some (n, rest) => Some (String c n, rest)
      | None => None
      end.
Proof. reflexivity. Qed.

Lemma quoted_mono k : forall s r k', quoted k s = Some r -> k <= k' -> quoted k' s = Some r.
Proof.
  induction k as [|k IH]; intros s r k' H Hle; [discriminate|].
  destruct k' as [|k']; [lia|]. simpl in *.
  destruct s as [|c s]; [discriminate|].
  destruct (Ascii.eqb c dquote); [exact H|].
  destruct (Ascii.eqb c backslash).
  - destruct (escaped s) as [[a r']|]; [|discriminate].
    destruct (quoted k r') as [[n rest]|] eqn:E; [|discriminate].
    rewrite (IH _ _ k' E) by lia. exact H.
  - destruct (is_newline c || (code c =? 0)%N); [discriminate|].
    destruct (quoted k s) as [[n rest]|] eqn:E; [|discriminate].
    rewrite (IH _ _ k' E) by lia. exact H.
Qed.

(** One escaped character is read back as the character it came from. *)
Lemma quoted_escape_char lead c t k n rest :
  quoted k t = Some (n, rest) ->
  quoted (String.length (escape_char lead c) + k) (escape_char lead c ++ t)
  = Some (sanitize_char c ++ n, rest).
Proof.
  intros H.
  destruct lead; destruct c as [[] [] [] [] [] [] [] []]; evaluate_escape;
    cbv -[quoted]; repeat (rewrite quoted_S; cbv -[quoted]);
    try (rewrite H; reflexivity);
    try (rewrite (quoted_mono _ _ _ _ H) by lia; reflexivity).
Qed.

Lemma quoted_escape_from s : forall lead tail,
  quoted (S (String.length (escape_from lead s))) (escape_from lead s ++ String dquote tail)
  = Some (sanitize s, tail).
Proof.
  induction s as [|c r IH]; intros lead tail; [reflexivity|].
  simpl escape_from. simpl sanitize. rewrite append_assoc, length_append.
  rewrite plus_n_Sm. apply quoted_escape_char, IH.
Qed.

Lemma escape_unfold c r :
  escape (String c r) =
    if Ascii.eqb c dash && String.eqb r EmptyString
    then String backslash (String dash EmptyString)
    else escape_char true c ++ escape_from (Ascii.eqb c dash) r.
Proof. reflexivity. Qed.

(** [CSS.escape s] between double quotes is read back as [s]. *)
Lemma quoted_escape s tail k :
  String.length (escape s) < k ->
  quoted k (escape s ++ String dquote tail) = Some (sanitize s, tail).
Proof.
  intros Hk. apply quoted_mono with (k := S (String.length (escape s))); [|lia].
  destruct s as [|c r]; [reflexivity|]. rewrite escape_unfold.
  destruct (Ascii.eqb c dash && String.eqb r EmptyString) eqn:E.
  - apply andb_true_iff in E. destruct E as [E1 E2].
    apply Ascii.eqb_eq in E1. apply String.eqb_eq in E2. subst. reflexivity.
  - simpl sanitize. rewrite append_assoc, length_append.
    rewrite plus_n_Sm. apply quoted_escape_char, quoted_escape_from.
Qed.

(** *** Names *)

Lemma name_S k c r :
  name (S k) (String c r) =
    if is_name_char c then
      match name k r with
      | Some (n, rest) => Some (String c n, rest)
      | None => None
      end
    else if Ascii.eqb c backslash then
      match escaped r with
      | Some (a, r') =>
          match name k r' with
          | Some (n, rest) => Some (String a n, rest)
          | None => None
          end
      | None => None
      end
    else if (code c =? 0)%N then None
    else Some (EmptyString, String c r).
Proof. reflexivity. Qed.

Lemma name_mono k : forall s r k', name k s = Some r -> k <= k' -> name k' s = Some r.
Proof.
  induction k as [|k IH]; intros s r k' H Hle; [discriminate|].
  destruct k' as [|k']; [lia|]. simpl in *.
  destruct s as [|c s]; [exact H|].
  destruct (is_name_char c).
  - destruct (name k s) as [[n rest]|] eqn:E; [|discriminate].
    rewrite (IH _ _ k' E) by lia. exact H.
  - destruct (Ascii.eqb c backslash); [|exact H].
    destruct (escaped s) as [[a r']|]; [|discriminate].
    destruct (name k r') as [[n rest]|] eqn:E; [|discriminate].
    rewrite (IH _ _ k' E) by lia. exact H.
Qed.

Lemma name_escape_char lead c t k n rest :
  name k t = Some (n, rest) ->
  name (String.length (escape_char lead c) + k) (escape_char lead c ++ t)
  = Some (sanitize_char c ++ n, rest).
Proof.
  intros H.
  destruct lead; destruct c as [[] [] [] [] [] [] [] []]; evaluate_escape;
    cbv -[name]; repeat (rewrite name_S; cbv -[name]);
    try (rewrite H; reflexivity);
    try (rewrite (name_mono _ _ _ _ H) by lia; reflexivity).
Qed.

Lemma name_escape_from s : forall lead,
  name (S (String.length (escape_from lead s))) (escape_from lead s ++ EmptyString)
  = Some (sanitize s, EmptyString).
Proof.
  induction s as [|c r IH]; intros lead; [reflexivity|].
  simpl escape_from. simpl sanitize. rewrite append_assoc, length_append.
  rewrite plus_n_Sm. apply name_escape_char, IH.
Qed.

Lemma append_empty (s : string) : s ++ EmptyString = s.
Proof. induction s as [|c r IH]; simpl; [reflexivity|]. rewrite IH. reflexivity. Qed.

(** [CSS.escape s] is read back as the name [s]. *)
Lemma name_escape s k :
  String.length (escape s) < k -> name k (escape s) = Some (sanitize s, EmptyString).
Proof.
  intros Hk. apply name_mono with (k := S (String.length (escape s))); [|lia].
  destruct s as [|c r]; [reflexivity|]. rewrite escape_unfold.
  destruct (Ascii.eqb c dash && String.eqb r EmptyString) eqn:E.
  - apply andb_true_iff in E. destruct E as [E1 E2].
    apply Ascii.eqb_eq in E1. apply String.eqb_eq in E2. subst. reflexivity.
  - simpl sanitize. rewrite length_append.
    rewrite <- (append_empty (escape_from _ r)) at 2.
    rewrite plus_n_Sm. apply name_escape_char, name_escape_from.
Qed.

(** The escaped form of a non-empty text starts an identifier, so that
    [#] followed by it is an ID selector. *)
Lemma starts_ident_escape s : s <> EmptyString -> starts_ident (escape s) = true.
Proof.
  destruct s as [|c r]; [congruence|]. intros _. rewrite escape_unfold.
  destruct (Ascii.eqb c dash && String.eqb r EmptyString) eqn:E; [reflexivity|].
  destruct c as [[] [] [] [] [] [] [] []]; try reflexivity.
  destruct r as [|c2 r2]; [discriminate|].
  destruct c2 as [[] [] [] [] [] [] [] []]; reflexivity.
Qed.

(** *** Numbers *)

Lemma digits_uint u : forall tail,
  digits (NilEmpty.string_of_uint u ++ String ")" tail)
  = (NilEmpty.string_of_uint u, String ")" tail).
Proof.
  induction u; intros tail; simpl; try reflexivity;
    cbv [is_digit between code]; simpl; rewrite IHu; reflexivity.
Qed.

Lemma to_uint_not_nil n : Nat.to_uint n <> Decimal.Nil.
Proof.
  rewrite <- (DecimalNat.Unsigned.of_to n) at 1.
  rewrite DecimalNat.Unsigned.to_of. apply DecimalFacts.unorm_nonnil.
Qed.

Lemma string_of_uint_not_empty u :
  u <> Decimal.Nil -> exists d ds, NilEmpty.string_of_uint u = String d ds.
Proof. destruct u; [congruence|..]; intros _; simpl; eauto. Qed.

Lemma print_nonnegative z :
  (0 <= z)%Z -> DOM.print z = NilEmpty.string_of_uint (Nat.to_uint (Z.to_nat z)).
Proof.
  intros H. unfold DOM.print. destruct (Z.ltb_spec z 0); [lia|reflexivity].
Qed.

(** [:nth-of-type(k)] as the script prints it is read back as [k]. *)
Lemma part_nth z tail k :
  (0 <= z)%Z ->
  part k (":nth-of-type(" ++ DOM.print z ++ String ")" tail)
  = Some (NthOfType (Z.to_nat z), tail).
Proof.
  intros H. rewrite (print_nonnegative _ H). unfold part.
  change (":nth-of-type(" ++ ?x) with (String ":" ("nth-of-type(" ++ x)).
  cbv iota beta.
  change (strip "nth-of-type(" ("nth-of-type(" ++ ?x)) with (Some x).
  cbv iota beta. rewrite digits_uint.
  destruct (string_of_uint_not_empty _ (to_uint_not_nil (Z.to_nat z))) as (d & ds & E).
  rewrite E. rewrite <- E. rewrite NilEmpty.usu, DecimalNat.Unsigned.of_to. reflexivity.
Qed.

(** *** The selectors of the script *)

Lemma part_attribute a n tail k :
  (forall x, plain_ident (a ++ String "=" x) = Some (a, String "=" x)) ->
  String.length (escape n) < k ->
  part k (String "[" (a ++ String "=" (Content.quote (escape n) ++ String "]" tail)))
  = Some (Attr a (sanitize n), tail).
Proof.
  intros Ha Hk. unfold part. cbv iota beta. rewrite Ha.
  unfold Content.quote. simpl. rewrite append_assoc. simpl.
  rewrite quoted_escape by assumption. reflexivity.
Qed.

Lemma part_list_S k c r :
  part_list (S k) (String c r) =
    if Ascii.eqb c "#" || Ascii.eqb c "[" || Ascii.eqb c ":" then
      match part (String.length (String c r)) (String c r) with
      | Some (p, rest) =>
          match part_list k rest with
          | Some (ps, rest') => Some (p :: ps, rest')
          | None => None
          end
      | None => None
      end
    else Some ([], String c r).
Proof. reflexivity. Qed.

Lemma part_list_attribute a n tail k :
  (forall x, plain_ident (a ++ String "=" x) = Some (a, String "=" x)) ->
  part_list (S k) (String "[" (a ++ String "=" (Content.quote (escape n) ++ String "]" tail)))
  = match part_list k tail with
    | Some (ps, rest) => Some (Attr a (sanitize n) :: ps, rest)
    | None => None
    end.
Proof.
  intros Ha. rewrite part_list_S. cbv iota beta.
  change (Ascii.eqb "[" "#" || Ascii.eqb "[" "[" || Ascii.eqb "[" ":") with true.
  cbv iota. rewrite part_attribute; [reflexivity|assumption|].
  simpl. rewrite length_append. simpl. unfold Content.quote. simpl.
  rewrite !length_append. lia.
Qed.

Lemma part_list_nth z tail k :
  (0 <= z)%Z ->
  part_list (S k) (":nth-of-type(" ++ DOM.print z ++ String ")" tail)
  = match part_list k tail with
    | Some (ps, rest) => Some (NthOfType (Z.to_nat z) :: ps, rest)
    | None => None
    end.
Proof.
  intros Hz.
  change (":nth-of-type(" ++ ?x) with (String ":" ("nth-of-type(" ++ x)).
  rewrite part_list_S.
  change (Ascii.eqb ":" "#" || Ascii.eqb ":" "[" || Ascii.eqb ":" ":") with true.
  cbv iota.
  change (String ":" ("nth-of-type(" ++ ?x)) with (":nth-of-type(" ++ x).
  rewrite part_nth by assumption. reflexivity.
Qed.

Lemma parse_single s c :
  parse_compound s = Some (c, EmptyString) -> parse s = Some [c].
Proof. intros H. unfold parse. simpl. rewrite H. reflexivity. Qed.

Lemma parse_compound_input x ps rest :
  part_list (S (String.length (String "[" x))) (String "[" x) = Some (ps, rest) ->
  parse_compound ("input" ++ String "[" x) = Some (Compound (Some "input") ps, rest).
Proof.
  intros H. unfold parse_compound.
  change (plain_ident ("input" ++ String "[" x)) with (Some ("input", String "[" x)).
  cbv iota beta. rewrite H. reflexivity.
Qed.

Lemma plain_name x : plain_ident ("name" ++ String "=" x) = Some ("name", String "=" x).
Proof. reflexivity. Qed.

Ltac same_text :=
  unfold Content.quote; simpl; repeat rewrite append_assoc; simpl; reflexivity.

(** [input[name="..."]], as [buildSelector] writes it. *)
Lemma parse_name_selector n :
  parse ("input[name=" ++ Content.quote (escape n) ++ "]")
  = Some [Compound (Some "input") [Attr "name" (sanitize n)]].
Proof.
  apply parse_single.
  change ("input[name=" ++ ?x) with ("input" ++ String "[" ("name" ++ String "=" x)).
  apply parse_compound_input.
  change (Content.quote (escape n) ++ "]") with (Content.quote (escape n) ++ String "]" "").
  rewrite part_list_attribute by apply plain_name. reflexivity.
Qed.

(** The same with [:nth-of-type(k)] after it. *)
Lemma parse_name_nth_selector n z :
  (0 <= z)%Z ->
  parse (("input[name=" ++ Content.quote (escape n) ++ "]")
         ++ ":nth-of-type(" ++ DOM.print z ++ ")")
  = Some [Compound (Some "input") [Attr "name" (sanitize n); NthOfType (Z.to_nat z)]].
Proof.
  intros Hz. apply parse_single.
  replace (("input[name=" ++ Content.quote (escape n) ++ "]")
           ++ ":nth-of-type(" ++ DOM.print z ++ ")")
    with ("input" ++ String "[" ("name" ++ String "="
            (Content.quote (escape n) ++ String "]"
               (":nth-of-type(" ++ DOM.print z ++ String ")" ""))))
    by same_text.
  apply parse_compound_input.
  rewrite part_list_attribute by apply plain_name.
  set (k := String.length _).
  assert (Hk : exists j, k = S (S j)).
  { unfold k. simpl. rewrite length_append. simpl. eauto. }
  destruct Hk as [j ->]. rewrite part_list_nth by assumption. reflexivity.
Qed.

Lemma plain_type x : plain_ident ("type" ++ String "=" x) = Some ("type", String "=" x).
Proof. reflexivity. Qed.

(** [input[type="radio"][name="..."]], the radio group of a name. *)
Lemma parse_radio_group_selector n :
  parse ("input[type=" ++ Content.quote "radio" ++ "][name="
         ++ Content.quote (escape n) ++ "]")
  = Some [Compound (Some "input") [Attr "type" "radio"; Attr "name" (sanitize n)]].
Proof.
  apply parse_single.
  replace ("input[type=" ++ Content.quote "radio" ++ "][name="
           ++ Content.quote (escape n) ++ "]")
    with ("input" ++ String "[" ("type" ++ String "="
            (Content.quote (escape "radio") ++ String "]"
               (String "[" ("name" ++ String "="
                  (Content.quote (escape n) ++ String "]" ""))))))
    by same_text.
  apply parse_compound_input.
  rewrite part_list_attribute by apply plain_type.
  set (k := String.length _).
  assert (Hk : exists j, k = S (S j)).
  { unfold k. simpl. rewrite length_append. simpl. eauto. }
  destruct Hk as [j ->]. rewrite part_list_attribute by apply plain_name.
  reflexivity.
Qed.

(** [#id]. *)
Lemma parse_id_selector id :
  id <> EmptyString ->
  parse ("#" ++ escape id) = Some [Compound None [Id (sanitize id)]].
Proof.
  intros Hid. apply parse_single. unfold parse_compound.
  change (plain_ident ("#" ++ escape id)) with (@None (string * string)).
  cbv iota.
  change ("#" ++ escape id) with (String "#" (escape id)).
  rewrite part_list_S.
  change (Ascii.eqb "#" "#" || Ascii.eqb "#" "[" || Ascii.eqb "#" ":") with true.
  cbv iota. unfold part. cbv iota beta.
  rewrite (starts_ident_escape _ Hid), name_escape by (simpl; lia).
  destruct (escape id); reflexivity.
Qed.

Lemma parse_candidates :
  parse "input, textarea, select"
  = Some [Compound (Some "input") []; Compound (Some "textarea") [];
          Compound (Some "select") []].
Proof. reflexivity. Qed.

(** *** Selectors that always parse *)

Lemma parse_compound_tag t x ps rest :
  (forall y, plain_ident (t ++ String "[" y) = Some (t, String "[" y)) ->
  part_list (S (String.length (String "[" x))) (String "[" x) = Some (ps, rest) ->
  parse_compound (t ++ String "[" x) = Some (Compound (Some t) ps, rest).
Proof.
  intros Ht H. unfold parse_compound. rewrite Ht. rewrite H. reflexivity.
Qed.

(** [tag[attr="..."]] for a tag and an attribute written without escapes. *)
Lemma parse_attribute_selector t a n :
  (forall y, plain_ident (t ++ String "[" y) = Some (t, String "[" y)) ->
  (forall y, plain_ident (a ++ String "=" y) = Some (a, String "=" y)) ->
  parse (t ++ String "[" (a ++ String "=" (Content.quote (escape n) ++ "]")))
  = Some [Compound (Some t) [Attr a (sanitize n)]].
Proof.
  intros Ht Ha. apply parse_single. apply parse_compound_tag; [exact Ht|].
  change (Content.quote (escape n) ++ "]") with (Content.quote (escape n) ++ String "]" "").
  rewrite part_list_attribute by exact Ha. reflexivity.
Qed.



(** [tag[name="..."]] for the tags of form controls. *)
Lemma parse_control_selector t n :
  t = "input" \/ t = "textarea" \/ t = "select" ->
  parse (t ++ "[name=" ++ Content.quote (escape n) ++ "]")
  = Some [Compound (Some t) [Attr "name" (sanitize n)]].
Proof.
  intros [-> | [-> | ->]];
    apply (parse_attribute_selector _ "name" n); try apply plain_name; reflexivity.
Qed.

End Escaping.


(** ** Elements of the page *)

Section Nodes.

Import JS DOM Content Spec.

Variable b : browser.

Lemma combine_seq_In {A : Type} (l : list A) : forall k i e,
  In (i, e) (combine (seq k (length l)) l) <-> k <= i /\ l !! (i - k) = Some e.
Proof.
  induction l as [|x l IH]; intros k i e; simpl.
  - split; [tauto|]. intros [_ H]. discriminate.
  - rewrite IH. split.
    + intros [[= <- <-]|[H1 H2]].
      * split; [lia|]. replace (k - k) with 0 by lia. reflexivity.
      * split; [lia|]. replace (i - k) with (S (i - S k)) by lia. exact H2.
    + intros [H1 H2]. destruct (decide (i = k)) as [->|Hne].
      * left. replace (k - k) with 0 in H2 by lia. simpl in H2. congruence.
      * right. split; [lia|].
        replace (i - k) with (S (i - S k)) in H2 by lia. exact H2.
Qed.

Lemma nodes_lookup (d : document) i e : In (i, e) (nodes d) <-> d !! i = Some e.
Proof.
  unfold nodes, positions. rewrite combine_seq_In.
  replace (i - 0) with i by lia. split; [tauto|]. split; [lia|assumption].
Qed.

Lemma querySelectorAll_nodes d sel l el :
  querySelectorAll b d sel = Some l -> In el l -> d !! fst el = Some (snd el).
Proof.
  unfold querySelectorAll. destruct (selector_test b sel); [|discriminate].
  intros [= <-] H. apply filter_In in H. destruct H as [H _].
  destruct el. apply nodes_lookup. exact H.
Qed.

Lemma querySelector_node d sel el :
  querySelector b d sel = Some (Some el) -> d !! fst el = Some (snd el).
Proof.
  unfold querySelector. destruct (querySelectorAll b d sel) as [l|] eqn:E; [|discriminate].
  destruct l as [|x l]; simpl; [discriminate|]. intros [= ->].
  eapply querySelectorAll_nodes; [exact E|left; reflexivity].
Qed.

End Nodes.

(** ** Queries the script makes *)

Section Queries.

Import JS CSS DOM Content Spec.

Variable b : browser.

Lemma query_parsed d sel s :
  parse sel = Some s ->
  querySelectorAll b d sel = Some (List.filter (fun n => matches s d (fst n)) (nodes d)).
Proof. intros H. unfold querySelectorAll, selector_test. rewrite H. reflexivity. Qed.

Lemma filter_ext_nodes (d : document) (P Q : node -> bool) :
  (forall i e, d !! i = Some e -> P (i, e) = Q (i, e)) ->
  List.filter P (nodes d) = List.filter Q (nodes d).
Proof.
  intros H. apply filter_ext_in. intros [i e] Hin. apply H, nodes_lookup, Hin.
Qed.

Lemma matches_name d i e n :
  matches_simple d i e (Attr "name" n)
  = match getAttribute "name" e with Some v => String.eqb v n | None => false end.
Proof.
  unfold matches_simple. change (toLowerCase "name") with "name".
  change (existsb (String.eqb "name") case_insensitive_attributes) with false.
  reflexivity.
Qed.

Lemma matches_type_radio d i e :
  matches_simple d i e (Attr "type" "radio") = String.eqb (type_attribute e) "radio".
Proof.
  unfold matches_simple, type_attribute, attribute_or_empty.
  change (toLowerCase "type") with "type".
  change (existsb (String.eqb "type") case_insensitive_attributes) with true.
  destruct (getAttribute "type" e); reflexivity.
Qed.

Lemma matches_input d i e ps :
  matches_compound d i e (Compound (Some "input") ps)
  = String.eqb (localName e) "input" && forallb (matches_simple d i e) ps.
Proof.
  unfold matches_compound. cbn [tag parts].
  change (toLowerCase "input") with "input".
  rewrite (String.eqb_sym "input"). reflexivity.
Qed.

(** The elements [input[name="n"]] selects. *)
Lemma query_name_group d n :
  has_nul n = false ->
  querySelectorAll b d ("input[name=" ++ quote (escape n) ++ "]") = Some (name_group d n).
Proof.
  intros Hn. rewrite (query_parsed _ _ _ (parse_name_selector n)).
  rewrite (sanitize_without_nul _ Hn). f_equal. unfold name_group.
  apply filter_ext_nodes. intros i e He. unfold matches. simpl. rewrite He.
  cbn [existsb]. rewrite matches_input. cbn [forallb]. rewrite matches_name.
  rewrite orb_false_r, andb_true_r. reflexivity.
Qed.

(** The elements [input[type="radio"][name="n"]] selects. *)
Lemma query_radio_group d n :
  querySelectorAll b d ("input[type=" ++ quote "radio" ++ "][name="
                        ++ quote (escape n) ++ "]")
  = Some (radio_group_of d (sanitize n)).
Proof.
  rewrite (query_parsed _ _ _ (parse_radio_group_selector n)).
  f_equal. unfold radio_group_of.
  apply filter_ext_nodes. intros i e He. unfold matches. simpl. rewrite He.
  cbn [existsb]. rewrite matches_input. cbn [forallb].
  rewrite matches_name, matches_type_radio.
  rewrite orb_false_r, andb_true_r, andb_assoc. reflexivity.
Qed.

(** The elements [input, textarea, select] selects. *)
Lemma query_candidates d :
  querySelectorAll b d "input, textarea, select"
  = Some (List.filter
            (fun x => String.eqb (localName (snd x)) "input"
                      || String.eqb (localName (snd x)) "textarea"
                      || String.eqb (localName (snd x)) "select")
            (nodes d)).
Proof.
  rewrite (query_parsed _ _ _ parse_candidates). f_equal.
  apply filter_ext_nodes. intros i e He. unfold matches. simpl. rewrite He.
  cbn [existsb]. unfold matches_compound. cbn [tag parts forallb].
  change (toLowerCase "input") with "input".
  change (toLowerCase "textarea") with "textarea".
  change (toLowerCase "select") with "select".
  rewrite !andb_true_r, orb_false_r, orb_assoc.
  rewrite (String.eqb_sym "input"), (String.eqb_sym "textarea"), (String.eqb_sym "select").
  reflexivity.
Qed.

(** The elements [#id] selects. *)
Lemma query_id d id :
  id <> EmptyString ->
  querySelectorAll b d ("#" ++ escape id)
  = Some (List.filter
            (fun x => match getAttribute "id" (snd x) with
                      | Some v => String.eqb v (sanitize id)
                      | None => false
                      end)
            (nodes d)).
Proof.
  intros Hid. rewrite (query_parsed _ _ _ (parse_id_selector _ Hid)). f_equal.
  apply filter_ext_nodes. intros i e He. unfold matches. simpl. rewrite He.
  cbn [existsb]. unfold matches_compound. cbn [tag parts forallb matches_simple].
  rewrite orb_false_r, andb_true_r. reflexivity.
Qed.

End Queries.


(** ** The selector builder *)

Section SelectorBuilder.

Import JS CSS DOM Content Spec.

Variable b : browser.

Lemma node_determined (d : document) x y :
  In x (nodes d) -> In y (nodes d) -> fst x = fst y -> x = y.
Proof.
  destruct x as [i e], y as [j f]. simpl. intros Hx Hy <-.
  apply nodes_lookup in Hx, Hy. congruence.
Qed.

(** When exactly the elements with the position of [el] pass a test, the
    first element that passes it is [el]. *)
Lemma first_match (d : document) (P : node -> bool) el :
  In el (nodes d) -> P el = true ->
  (forall x, In x (nodes d) -> P x = true -> fst x = fst el) ->
  head (List.filter P (nodes d)) = Some el.
Proof.
  intros Hin HP Huniq.
  assert (Hf : In el (List.filter P (nodes d))) by (apply filter_In; auto).
  destruct (List.filter P (nodes d)) as [|x l] eqn:E; [contradiction|].
  simpl. f_equal.
  assert (Hx : In x (List.filter P (nodes d))) by (rewrite E; left; reflexivity).
  apply filter_In in Hx. destruct Hx as [Hx1 Hx2].
  apply (node_determined d); auto.
Qed.

Lemma indexOf_found l x y :
  In y l -> fst y = fst x -> (0 <= indexOf l x)%Z.
Proof.
  induction l as [|z r IH]; simpl; [tauto|]. intros [->|Hin] Hf.
  - rewrite Hf, Nat.eqb_refl. lia.
  - destruct (Nat.eqb (fst z) (fst x)); [lia|].
    specialize (IH Hin Hf). destruct (Z.ltb_spec (indexOf r x) 0); lia.
Qed.

Lemma indexOf_lookup l x :
  (0 <= indexOf l x)%Z ->
  exists y, l !! Z.to_nat (indexOf l x) = Some y /\ fst y = fst x.
Proof.
  induction l as [|z r IH]; simpl; [lia|].
  destruct (Nat.eqb_spec (fst z) (fst x)) as [E|E].
  - intros _. exists z. split; [reflexivity|exact E].
  - destruct (Z.ltb_spec (indexOf r x) 0) as [Hlt|Hge]; [lia|]. intros _.
    destruct (IH Hge) as (y & Hy & Hf). exists y. split; [|exact Hf].
    replace (Z.to_nat (indexOf r x + 1)) with (S (Z.to_nat (indexOf r x))) by lia.
    exact Hy.
Qed.

Lemma indexOf_injective l x y :
  (0 <= indexOf l x)%Z -> (0 <= indexOf l y)%Z ->
  Z.to_nat (indexOf l x) = Z.to_nat (indexOf l y) -> fst x = fst y.
Proof.
  intros Hx Hy E.
  destruct (indexOf_lookup _ _ Hx) as (x' & Lx & Fx).
  destruct (indexOf_lookup _ _ Hy) as (y' & Ly & Fy).
  rewrite E in Lx. congruence.
Qed.

Lemma in_name_group d n x :
  In x (name_group d n)
  <-> In x (nodes d) /\ localName (snd x) = "input" /\ getAttribute "name" (snd x) = Some n.
Proof.
  unfold name_group. rewrite filter_In, andb_true_iff, String.eqb_eq.
  destruct (getAttribute "name" (snd x)) as [v|].
  - rewrite String.eqb_eq. intuition congruence.
  - intuition congruence.
Qed.

(** C5, as amended.  For an element whose [id] attribute is not empty,
    [buildSelector] returns [#] followed by the escaped id; when moreover the
    id holds no U+0000 and no other element of the page has it,
    [querySelector] on that selector gives the element back. *)
Theorem id_selector d el id :
  getAttribute "id" (snd el) = Some id ->
  id <> EmptyString ->
  buildSelector b d el = Normal ("#" ++ escape id)
  /\ (In el (nodes d) ->
      has_nul id = false ->
      (forall x, In x (nodes d) -> getAttribute "id" (snd x) = Some id -> fst x = fst el) ->
      querySelector b d ("#" ++ escape id) = Some (Some el)).
Proof.
  intros Hid Hne. split.
  - unfold buildSelector. rewrite Hid.
    destruct (String.eqb_spec id ""); [contradiction|reflexivity].
  - intros Hin Hnul Huniq. unfold querySelector.
    rewrite (query_id b d id Hne), (sanitize_without_nul _ Hnul). f_equal.
    apply first_match; [exact Hin| |].
    + rewrite Hid. apply String.eqb_refl.
    + intros x Hx Hp. apply Huniq; [exact Hx|].
      destruct (getAttribute "id" (snd x)); [|discriminate].
      apply String.eqb_eq in Hp. congruence.
Qed.

Lemma build_radio_selector d n el :
  In el (nodes d) -> radio_named n (snd el) ->
  n <> EmptyString -> has_nul n = false ->
  buildSelector b d el = Normal (group_selector (name_group d n) n el)
  /\ (0 <= indexOf (name_group d n) el)%Z.
Proof.
  intros Hin (Ht & Hr & Hi & Hn) Hne Hnul.
  assert (Hidx : (0 <= indexOf (name_group d n) el)%Z).
  { apply indexOf_found with (y := el); [|reflexivity].
    apply in_name_group. auto. }
  split; [|exact Hidx].
  unfold buildSelector. rewrite Hi, Hn.
  destruct (String.eqb_spec n ""); [contradiction|].
  unfold type_attribute in Hr. rewrite Hr, Ht. cbn [String.eqb Ascii.eqb Bool.eqb orb].
  change ("input" ++ "[name=" ++ ?x) with ("input[name=" ++ x).
  unfold query_all. rewrite (query_name_group b d n Hnul).
  destruct (Z.geb_spec (indexOf (name_group d n) el) 0); [reflexivity|lia].
Qed.

Lemma resolve_radio_selector d n el :
  In el (nodes d) -> radio_named n (snd el) ->
  n <> EmptyString -> has_nul n = false ->
  (forall x, In x (name_group d n) ->
             same_type_before d (fst x) = Z.to_nat (indexOf (name_group d n) x)) ->
  querySelector b d (group_selector (name_group d n) n el) = Some (Some el).
Proof.
  intros Hin Hrad Hne Hnul Hpos.
  destruct (build_radio_selector d n el Hin Hrad Hne Hnul) as [_ Hidx].
  destruct Hrad as (Ht & Hr & Hi & Hn).
  assert (Hg : In el (name_group d n)) by (apply in_name_group; auto).
  unfold querySelector, group_selector.
  assert (Hz : (0 <= indexOf (name_group d n) el + 1)%Z) by lia.
  rewrite (query_parsed b d _ _ (parse_name_nth_selector n _ Hz)).
  rewrite (sanitize_without_nul _ Hnul). f_equal.
  assert (HP : forall x, In x (nodes d) ->
             matches [Compound (Some "input")
                        [Attr "name" n;
                         NthOfType (Z.to_nat (indexOf (name_group d n) el + 1))]]
                     d (fst x) = true
             <-> In x (name_group d n)
                 /\ Z.to_nat (indexOf (name_group d n) el + 1) = S (same_type_before d (fst x))).
  { intros [i e] Hx. unfold matches. simpl fst.
    rewrite (proj1 (nodes_lookup d i e) Hx). cbn [existsb]. rewrite matches_input.
    cbn [forallb]. rewrite matches_name. cbn [matches_simple].
    rewrite orb_false_r, andb_true_r, andb_assoc, andb_true_iff, Nat.eqb_eq.
    rewrite in_name_group. simpl snd. rewrite andb_true_iff, String.eqb_eq.
    destruct (getAttribute "name" e) as [v|].
    - rewrite String.eqb_eq. intuition congruence.
    - intuition congruence. }
  apply first_match; [exact Hin| |].
  - apply HP; [exact Hin|]. split; [exact Hg|]. rewrite (Hpos _ Hg). lia.
  - intros x Hx Hm. apply HP in Hm; [|exact Hx]. destruct Hm as [Hxg Hk].
    rewrite (Hpos _ Hxg) in Hk.
    assert (Hxi : (0 <= indexOf (name_group d n) x)%Z).
    { apply indexOf_found with (y := x); [exact Hxg|reflexivity]. }
    apply (indexOf_injective (name_group d n)); [assumption..|lia].
Qed.

(** C4, as amended.  Two different radio inputs of the page that share a
    non-empty [name] without U+0000 and have no [id] get different selectors
    [input[name="..."]:nth-of-type(i+1)], [i] being the place of each among
    the inputs of that name in document order; [querySelector] gives each
    element back from its selector when every input of that name has as many
    earlier [input] siblings as it has inputs of that name before it. *)
Theorem radio_selectors d n el1 el2 :
  In el1 (nodes d) -> In el2 (nodes d) -> fst el1 <> fst el2 ->
  radio_named n (snd el1) -> radio_named n (snd el2) ->
  n <> EmptyString -> has_nul n = false ->
  let g := name_group d n in
  (buildSelector b d el1 = Normal (group_selector g n el1)
   /\ buildSelector b d el2 = Normal (group_selector g n el2))
  /\ (g !! Z.to_nat (indexOf g el1) = Some el1
      /\ g !! Z.to_nat (indexOf g el2) = Some el2)
  /\ group_selector g n el1 <> group_selector g n el2
  /\ ((forall x, In x g -> same_type_before d (fst x) = Z.to_nat (indexOf g x)) ->
      querySelector b d (group_selector g n el1) = Some (Some el1)
      /\ querySelector b d (group_selector g n el2) = Some (Some el2)).
Proof.
  intros H1 H2 Hne R1 R2 Hn Hnul g.
  destruct (build_radio_selector d n el1 H1 R1 Hn Hnul) as [B1 I1].
  destruct (build_radio_selector d n el2 H2 R2 Hn Hnul) as [B2 I2].
  fold g in B1, B2, I1, I2.
  assert (L : forall el, In el (nodes d) -> (0 <= indexOf g el)%Z ->
                         g !! Z.to_nat (indexOf g el) = Some el).
  { intros el Hel Hi. destruct (indexOf_lookup _ _ Hi) as (y & Ly & Fy).
    assert (Hy : In y g).
    { apply list_elem_of_In. eapply list_elem_of_lookup_2. exact Ly. }
    apply in_name_group in Hy.
    assert (E : y = el) by (apply (node_determined d); tauto).
    rewrite <- E at 2. exact Ly. }
  repeat split; auto.
  - intros E.
    pose proof (parse_name_nth_selector n (indexOf g el1 + 1) ltac:(lia)) as P1.
    pose proof (parse_name_nth_selector n (indexOf g el2 + 1) ltac:(lia)) as P2.
    unfold group_selector in E. rewrite E in P1. rewrite P1 in P2.
    injection P2 as P2. apply Hne.
    apply (indexOf_injective g); [assumption..|lia].
  - apply resolve_radio_selector; assumption.
  - apply resolve_radio_selector; assumption.
Qed.

End SelectorBuilder.


Section SelectorBuilderExamples.

Import JS CSS DOM Content Spec.

(** C5, counterexample.  An element with an empty [id] attribute does not
    get [#] followed by its escaped id but falls through to its [name]; and
    an id with U+0000 in it, though no other element has it, is not found
    again by the selector built from it. *)
Lemma id_selector_counterexample :
  (getAttribute "id" (snd (node_at empty_id_page 0)) = Some EmptyString
   /\ buildSelector plain_browser empty_id_page (node_at empty_id_page 0)
      = Normal ("input[name=" ++ quote "q" ++ "]")
   /\ buildSelector plain_browser empty_id_page (node_at empty_id_page 0)
      <> Normal ("#" ++ escape EmptyString))
  /\ (getAttribute "id" (snd (node_at nul_id_page 0)) = Some nul_id
      /\ buildSelector plain_browser nul_id_page (node_at nul_id_page 0)
         = Normal ("#" ++ escape nul_id)
      /\ querySelector plain_browser nul_id_page ("#" ++ escape nul_id) = Some None).
Proof.
  repeat split; try reflexivity. vm_compute. discriminate.
Qed.

(** On a page with one [<input id="email">], the selector is [#email] and
    finds the input again. *)
Lemma id_selector_witness :
  buildSelector plain_browser email_page (node_at email_page 2) = Normal "#email"
  /\ querySelector plain_browser email_page "#email" = Some (Some (node_at email_page 2)).
Proof.
  destruct (id_selector plain_browser email_page (node_at email_page 2) "email"
              eq_refl ltac:(discriminate)) as [B Q].
  split; [exact B|]. apply Q.
  - vm_compute. tauto.
  - reflexivity.
  - intros x Hx. vm_compute in Hx.
    destruct Hx as [<-|[<-|[<-|[]]]]; vm_compute; congruence.
Defined.

(** C4, counterexample.  Of two radios of one name that sit each in a label
    of its own, the second gets [input[name="g"]:nth-of-type(2)], which no
    element of the page matches. *)
Lemma radio_selectors_counterexample :
  radio_named "g" (snd (node_at labelled_radios 3))
  /\ radio_named "g" (snd (node_at labelled_radios 5))
  /\ buildSelector plain_browser labelled_radios (node_at labelled_radios 5)
     = Normal ("input[name=" ++ quote "g" ++ "]:nth-of-type(2)")
  /\ querySelector plain_browser labelled_radios
       ("input[name=" ++ quote "g" ++ "]:nth-of-type(2)") = Some None.
Proof. repeat split; reflexivity. Qed.

(** Two radios of one name that are the only inputs of their parent get
    [:nth-of-type(1)] and [:nth-of-type(2)], and each selector finds its
    radio. *)
Lemma radio_selectors_witness :
  (buildSelector plain_browser sibling_radios (node_at sibling_radios 2)
   = Normal ("input[name=" ++ quote "g" ++ "]:nth-of-type(1)")
   /\ buildSelector plain_browser sibling_radios (node_at sibling_radios 3)
      = Normal ("input[name=" ++ quote "g" ++ "]:nth-of-type(2)"))
  /\ (querySelector plain_browser sibling_radios
        ("input[name=" ++ quote "g" ++ "]:nth-of-type(1)")
      = Some (Some (node_at sibling_radios 2))
      /\ querySelector plain_browser sibling_radios
           ("input[name=" ++ quote "g" ++ "]:nth-of-type(2)")
         = Some (Some (node_at sibling_radios 3))).
Proof.
  assert (H2 : In (node_at sibling_radios 2) (nodes sibling_radios)) by (vm_compute; tauto).
  assert (H3 : In (node_at sibling_radios 3) (nodes sibling_radios)) by (vm_compute; tauto).
  assert (R2 : radio_named "g" (snd (node_at sibling_radios 2))) by (repeat split; reflexivity).
  assert (R3 : radio_named "g" (snd (node_at sibling_radios 3))) by (repeat split; reflexivity).
  destruct (radio_selectors plain_browser sibling_radios "g"
              (node_at sibling_radios 2) (node_at sibling_radios 3)
              H2 H3 ltac:(discriminate) R2 R3 ltac:(discriminate) eq_refl)
    as (B & _ & _ & Q).
  split; [exact B|]. apply Q.
  intros x Hx. vm_compute in Hx. destruct Hx as [<-|[<-|[]]]; reflexivity.
Defined.

End SelectorBuilderExamples.

(** ** The field extractor *)

Section Extractor.

Import JS CSS DOM Content Spec.

Variable b : browser.

Lemma filter_twice {A : Type} (P Q : A -> bool) (l : list A) :
  List.filter P (List.filter Q l) = List.filter (fun x => Q x && P x) l.
Proof.
  induction l as [|x l IH]; simpl; [reflexivity|].
  destruct (Q x); simpl; [|exact IH]. destruct (P x); rewrite IH; reflexivity.
Qed.

(** The elements described are the fillable ones, in document order. *)
Lemma candidates_fillable d :
  candidates b d = Normal (List.filter (fun x => fillable (snd x)) (nodes d)).
Proof.
  unfold candidates, query_all. rewrite query_candidates, !filter_twice.
  f_equal. apply filter_ext. intros x. unfold fillable, type_attribute.
  rewrite andb_assoc. reflexivity.
Qed.

Lemma map_throwing_normal {A B : Type} (f : A -> outcome B) (l : list A) ys :
  map_throwing f l = Normal ys -> Forall2 (fun x y => f x = Normal y) l ys.
Proof.
  revert ys. induction l as [|x l IH]; simpl; intros ys.
  - intros [= <-]. constructor.
  - destruct (f x) as [y|e] eqn:E; [|discriminate].
    destruct (map_throwing f l) as [ys'|e]; [|discriminate].
    intros [= <-]. constructor; [exact E|]. apply IH. reflexivity.
Qed.



(** *** Extraction returns on a page with a body *)







End Extractor.

Section ExtractorExamples.

Import JS CSS DOM Content Spec.



End ExtractorExamples.


(** ** The applicator: counters, skipping and dispatch *)

Section Applicator.

Import JS DOM Content Spec.

Variable b : browser.

Ltac run_script :=
  unfold bind, ret, read, write, raise, fire in *; simpl in *.

Lemma deselect_all_normal i opts p :
  exists p', deselect_all i opts p = (p', Normal tt).
Proof.
  revert p; induction opts as [|o r IH]; intros p; simpl.
  - eexists; reflexivity.
  - unfold bind, write. apply IH.
Qed.

Lemma select_wanted_normal i opts ws any p :
  exists p' a, select_wanted i opts ws any p = (p', Normal a).
Proof.
  revert any p; induction ws as [|w r IH]; intros any p; simpl.
  - do 2 eexists; reflexivity.
  - destruct (resolveOne opts w); [unfold bind, write|]; apply IH.
Qed.

Lemma apply_checkbox_counts i val t p :
  snd (apply_checkbox i val t p) = Normal (update t).
Proof. reflexivity. Qed.

Lemma apply_text_counts i val t p :
  snd (apply_text i val t p) = Normal (update t).
Proof. reflexivity. Qed.

Lemma apply_radio_counts el val t p p' t' :
  apply_radio b el val t p = (p', Normal t') -> t' = skip t \/ t' = update t.
Proof.
  unfold apply_radio. run_script.
  destruct (negb (name (snd el) =? "")%string); simpl.
  - destruct (query_all b (doc p) _); simpl; [|discriminate].
    destruct (pick_radio _ _ _); simpl; [intros [= <- <-]; auto|].
    destruct (truthy_token _); intros [= <- <-]; auto.
  - destruct (truthy_token _); intros [= <- <-]; auto.
Qed.

Lemma apply_select_counts el val t p p' t' :
  apply_select el val t p = (p', Normal t') -> t' = skip t \/ t' = update t.
Proof.
  unfold apply_select.
  destruct (wanted val) as [|w0 ws]; [intros [= <- <-]; auto|].
  destruct (multiple (snd el)).
  - unfold bind.
    destruct (deselect_all_normal (fst el) (indexed_options (snd el)) p) as [p1 ->].
    destruct (select_wanted_normal (fst el) (indexed_options (snd el)) (w0 :: ws) false p1)
      as (p2 & a & ->).
    destruct a; run_script; intros [= <- <-]; auto.
  - destruct (resolveOne _ w0); run_script; intros [= <- <-]; auto.
Qed.

Lemma apply_to_counts kind raw el t p p' t' :
  apply_to b kind raw el t p = (p', Normal t') -> t' = skip t \/ t' = update t.
Proof.
  unfold apply_to.
  destruct (_ =? "file")%string; [intros [= <- <-]; auto|].
  destruct (_ =? "checkbox")%string.
  { intros H. pose proof (apply_checkbox_counts (fst el) (normalize b kind raw) t p) as E.
    rewrite H in E. simpl in E. injection E as ->. auto. }
  destruct (_ =? "radio")%string; [apply apply_radio_counts|].
  destruct (_ =? "select")%string; [apply apply_select_counts|].
  intros H. pose proof (apply_text_counts (fst el) (normalize b kind raw) t p) as E.
  rewrite H in E. simpl in E. injection E as ->. auto.
Qed.

(** One turn moves exactly one counter, and [updated] only for a mapping
    whose selector resolved. *)
Lemma apply_one_counts m t p p' t' :
  apply_one b m t p = (p', Normal t') ->
  t' = skip t \/ (t' = update t /\ resolves b (doc p) m = true).
Proof.
  unfold apply_one, resolves, lower_kind, bind.
  destruct (or_else (get "kind" m) (Str "")); try (unfold raise; discriminate).
  unfold ret at 1.
  destruct (truthy (get "selector" m)); simpl; [|intros [= <- <-]; auto].
  unfold read; simpl.
  destruct (querySelector b (doc p) _) as [[el|]|];
    try (unfold ret; intros [= <- <-]; auto).
  intros H. destruct (apply_to_counts _ _ _ _ _ _ _ H); auto.
Qed.

Lemma apply_all_counts ms : forall t p p' t',
  apply_all b ms t p = (p', Normal t') ->
  updated t' + skipped t' = updated t + skipped t + length ms
  /\ updated t' <= updated t + resolvable b ms t p.
Proof.
  induction ms as [|m r IH]; intros t p p' t'; simpl.
  - unfold ret. intros [= <- <-]. lia.
  - unfold bind. destruct (apply_one b m t p) as [p1 [t1|e]] eqn:E; [|discriminate].
    intros H. apply IH in H. destruct H as [H1 H2].
    destruct (apply_one_counts _ _ _ _ _ E) as [->|[-> R]].
    + simpl in *. destruct (resolves b (doc p) m); lia.
    + rewrite R. simpl in *. lia.
Qed.


Lemma lower_kind_of m k : kind_of m = Some k -> lower_kind b m = ret k.
Proof.
  unfold kind_of, lower_kind.
  destruct (or_else (get "kind" m) (Str "")); try discriminate.
  intros [= <-]. reflexivity.
Qed.




Lemma normalize_other_kind k raw :
  k <> "multi_select" -> normalize b k raw = raw.
Proof.
  intros H. unfold normalize. destruct raw; try reflexivity.
  destruct (String.eqb_spec k "multi_select"); [contradiction|reflexivity].
Qed.





(** *** Effects *)

Lemma page_eta p : p = Page (replay [] (doc p)) (trace p ++ []).
Proof. destruct p. simpl. rewrite app_nil_r. reflexivity. Qed.

Lemma replay_app xs ys d : replay (xs ++ ys) d = replay ys (replay xs d).
Proof. unfold replay. apply fold_left_app. Qed.

Lemma adds_ret {A : Type} P (a : A) : adds P (ret a).
Proof.
  intros p p' o [= <- <-]. exists []. split; [apply page_eta|constructor].
Qed.

Lemma adds_raise {A : Type} P f : adds P (@raise A b f).
Proof.
  intros p p' o [= <- <-]. exists []. split; [apply page_eta|constructor].
Qed.

Lemma adds_read {A : Type} P (f : document -> outcome A) : adds P (read f).
Proof.
  intros p p' o [= <- <-]. exists []. split; [apply page_eta|constructor].
Qed.

Lemma adds_write (P : effect -> Prop) x : P x -> adds P (write x).
Proof.
  intros Hx p p' o [= <- <-]. exists [x]. split; [reflexivity|].
  constructor; [exact Hx|constructor].
Qed.

Lemma adds_bind {A B : Type} P (c : M A) (k : A -> M B) :
  adds P c -> (forall a, adds P (k a)) -> adds P (bind c k).
Proof.
  intros Hc Hk p p' o. unfold bind.
  destruct (c p) as [p1 [a|e]] eqn:E.
  - intros H. destruct (Hc _ _ _ E) as (xs & -> & Fx).
    destruct (Hk a _ _ _ H) as (ys & -> & Fy). simpl.
    exists (xs ++ ys)%list. rewrite replay_app, app_assoc. split; [reflexivity|].
    apply Forall_app; auto.
  - intros [= <- <-]. destruct (Hc _ _ _ E) as (xs & -> & Fx). eauto.
Qed.

Lemma adds_weaken {A : Type} (P Q : effect -> Prop) (c : M A) :
  (forall x, P x -> Q x) -> adds P c -> adds Q c.
Proof.
  intros HPQ Hc p p' o H. destruct (Hc _ _ _ H) as (xs & -> & Fx).
  exists xs. split; [reflexivity|]. eapply Forall_impl; eauto.
Qed.

Lemma adds_fire (P : effect -> Prop) i :
  (forall ev, P (DispatchEvent i ev)) -> adds P (fire i).
Proof.
  intros H. unfold fire. apply adds_bind; [|intros _]; apply adds_write, H.
Qed.

Lemma adds_deselect_all i opts : adds leaves_checked (deselect_all i opts).
Proof.
  induction opts as [|o r IH]; simpl; [apply adds_ret|].
  apply adds_bind; [apply adds_write; exact I|intros _; exact IH].
Qed.

Lemma adds_select_wanted i opts ws : forall any,
  adds leaves_checked (select_wanted i opts ws any).
Proof.
  induction ws as [|w r IH]; intros any; simpl; [apply adds_ret|].
  destruct (resolveOne opts w); [|apply IH].
  apply adds_bind; [apply adds_write; exact I|intros _; apply IH].
Qed.

Lemma adds_apply_select el val t : adds leaves_checked (apply_select el val t).
Proof.
  unfold apply_select. destruct (wanted val) as [|w0 ws]; [apply adds_ret|].
  destruct (multiple (snd el)).
  - apply adds_bind; [apply adds_deselect_all|intros _].
    apply adds_bind; [apply adds_select_wanted|intros [|]].
    + apply adds_bind; [apply adds_fire; intros; exact I|intros _; apply adds_ret].
    + apply adds_ret.
  - destruct (resolveOne _ w0); [|apply adds_ret].
    apply adds_bind; [apply adds_write; exact I|intros _].
    apply adds_bind; [apply adds_fire; intros; exact I|intros _; apply adds_ret].
Qed.

Lemma adds_apply_text i val t : adds leaves_checked (apply_text i val t).
Proof.
  unfold apply_text.
  apply adds_bind; [apply adds_write; exact I|intros _].
  apply adds_bind; [apply adds_fire; intros; exact I|intros _; apply adds_ret].
Qed.

(** Every assignment of the radio branch assigns [true]. *)
Lemma adds_apply_radio el val t : adds checks_or_fires (apply_radio b el val t).
Proof.
  unfold apply_radio. apply adds_bind.
  - destruct (negb _); [apply adds_read|apply adds_ret].
  - intros [r|].
    + apply adds_bind; [apply adds_write; reflexivity|intros _].
      apply adds_bind; [apply adds_fire; intros; exact I|intros _; apply adds_ret].
    + destruct (truthy_token _); [|apply adds_ret].
      apply adds_bind; [apply adds_write; reflexivity|intros _].
      apply adds_bind; [apply adds_fire; intros; exact I|intros _; apply adds_ret].
Qed.

Lemma adds_apply_checkbox i val t (P : effect -> Prop) :
  (forall c, P (SetChecked i c)) -> (forall ev, P (DispatchEvent i ev)) ->
  adds P (apply_checkbox i val t).
Proof.
  intros Hc He. unfold apply_checkbox.
  apply adds_bind; [apply adds_write, Hc|intros _].
  apply adds_bind; [apply adds_fire, He|intros _; apply adds_ret].
Qed.

Lemma checks_or_fires_clears_nothing d x :
  checks_or_fires x -> clears_checkbox_only d x.
Proof. destruct x as [j [|]| | |]; simpl; try tauto. discriminate. Qed.

Lemma leaves_checked_clears_nothing d x :
  leaves_checked x -> clears_checkbox_only d x.
Proof. destruct x as [j [|]| | |]; simpl; tauto. Qed.

Lemma adds_apply_to d kind raw el t :
  d !! fst el = Some (snd el) ->
  adds (clears_checkbox_only d) (apply_to b kind raw el t).
Proof.
  intros Hel. unfold apply_to.
  destruct (_ =? "file")%string; [apply adds_ret|].
  destruct (String.eqb_spec (toLowerCase (attribute_or_empty "type" (snd el))) "checkbox")
    as [Hc|_].
  { apply adds_apply_checkbox; [|intros; exact I].
    intros [|]; simpl; [exact I|]. exists (snd el). split; [exact Hel|exact Hc]. }
  destruct (_ =? "radio")%string.
  { eapply adds_weaken; [apply checks_or_fires_clears_nothing|apply adds_apply_radio]. }
  destruct (_ =? "select")%string.
  { eapply adds_weaken; [apply leaves_checked_clears_nothing|apply adds_apply_select]. }
  eapply adds_weaken; [apply leaves_checked_clears_nothing|apply adds_apply_text].
Qed.

Lemma apply_one_effects m t p p' o :
  apply_one b m t p = (p', o) ->
  exists xs, p' = Page (replay xs (doc p)) (trace p ++ xs)
             /\ Forall (clears_checkbox_only (doc p)) xs.
Proof.
  unfold apply_one, lower_kind, bind.
  destruct (or_else (get "kind" m) (Str "")); try (apply adds_raise).
  unfold ret at 1.
  destruct (negb (truthy (get "selector" m))); [apply adds_ret|].
  unfold read. destruct (querySelector b (doc p) _) as [[el|]|] eqn:Q;
    try apply adds_ret.
  apply adds_apply_to. eapply querySelector_node. exact Q.
Qed.

(** Writes never touch tags, attributes or parents. *)
Lemma perform_type x d j :
  type_attribute <$> (perform x d !! j) = type_attribute <$> (d !! j).
Proof.
  destruct x as [i c|i v|i k c|i ev]; simpl; try reflexivity;
    rewrite list_lookup_alter; destruct (decide (i = j)) as [->|]; try reflexivity;
    destruct (d !! j); reflexivity.
Qed.

Lemma replay_type xs : forall d j,
  type_attribute <$> (replay xs d !! j) = type_attribute <$> (d !! j).
Proof.
  induction xs as [|x xs IH]; intros d j; [reflexivity|].
  change (replay (x :: xs) d) with (replay xs (perform x d)).
  rewrite IH. apply perform_type.
Qed.

Lemma clears_checkbox_only_earlier xs d x :
  clears_checkbox_only (replay xs d) x -> clears_checkbox_only d x.
Proof.
  destruct x as [j [|]| | |]; simpl; try tauto.
  intros (e & He & Ht). pose proof (replay_type xs d j) as E.
  rewrite He in E. simpl in E. destruct (d !! j) as [e0|]; [|discriminate].
  exists e0. split; [reflexivity|]. simpl in E. congruence.
Qed.

Lemma apply_all_effects ms : forall t p p' o,
  apply_all b ms t p = (p', o) ->
  exists xs, p' = Page (replay xs (doc p)) (trace p ++ xs)
             /\ Forall (clears_checkbox_only (doc p)) xs.
Proof.
  induction ms as [|m r IH]; intros t p p' o; simpl.
  - apply adds_ret.
  - unfold bind. destruct (apply_one b m t p) as [p1 [t1|e]] eqn:E.
    + intros H. destruct (apply_one_effects _ _ _ _ _ E) as (xs & -> & Fx).
      destruct (IH _ _ _ _ H) as (ys & -> & Fy). simpl in *.
      exists (xs ++ ys)%list. rewrite replay_app, app_assoc. split; [reflexivity|].
      apply Forall_app. split; [exact Fx|].
      eapply Forall_impl; [exact Fy|].
      intros x. apply clears_checkbox_only_earlier.
    + intros [= <- <-]. apply (apply_one_effects _ _ _ _ _ E).
Qed.


(** *** Resolution does not depend on what was written *)













(** *** The radio branch *)

Lemma apply_one_resolved m k t p el :
  kind_of m = Some k ->
  truthy (get "selector" m) = true ->
  querySelector b (doc p) (ToString (get "selector" m)) = Some (Some el) ->
  apply_one b m t p = apply_to b k (get "value" m) el t p.
Proof.
  intros Hk Hs Hq. unfold apply_one. rewrite (lower_kind_of _ _ Hk).
  unfold bind at 1, ret at 1. rewrite Hs. simpl.
  unfold bind, read. rewrite Hq. reflexivity.
Qed.

Lemma apply_to_radio k raw el t :
  type_attribute (snd el) = "radio" ->
  apply_to b k raw el t = apply_radio b el (normalize b k raw) t.
Proof. unfold apply_to, type_attribute. intros ->. reflexivity. Qed.

Lemma apply_radio_no_match el val t p :
  name (snd el) = ""
  \/ pick_radio (doc p) (radio_group_of (doc p) (sanitize (name (snd el)))) (lowered val)
     = None ->
  truthy_token (lowered val) = false ->
  apply_radio b el val t p = (p, Normal (skip t)).
Proof.
  intros Hg Hv. unfold apply_radio, bind.
  destruct (String.eqb_spec (name (snd el)) "") as [E|E]; cbn [negb].
  - unfold ret. rewrite Hv. reflexivity.
  - destruct Hg as [Hg|Hg]; [contradiction|].
    unfold read, query_all. cbv beta. rewrite query_radio_group, Hg, Hv. reflexivity.
Qed.

(** C10.  No run of the applicator assigns [false] to [checked] except on
    an element whose type is [checkbox]; for a mapping that resolves to a
    radio, all it does is assign [checked = true] and fire events; and when
    no member of the radio's group matches the value and the value is no
    truthy word, the mapping is skipped and nothing is written. *)
Theorem radios_are_never_unchecked :
  (forall ms t p p' o,
     apply_all b ms t p = (p', o) ->
     exists xs, p' = Page (replay xs (doc p)) (trace p ++ xs)
                /\ forall j, In (SetChecked j false) xs ->
                             exists e, doc p !! j = Some e
                                       /\ type_attribute e = "checkbox")
  /\ (forall m k t p el p' o,
        kind_of m = Some k ->
        truthy (get "selector" m) = true ->
        querySelector b (doc p) (ToString (get "selector" m)) = Some (Some el) ->
        type_attribute (snd el) = "radio" ->
        apply_one b m t p = (p', o) ->
        exists xs, p' = Page (replay xs (doc p)) (trace p ++ xs)
                   /\ Forall checks_or_fires xs)
  /\ (forall m k t p el,
        kind_of m = Some k ->
        truthy (get "selector" m) = true ->
        querySelector b (doc p) (ToString (get "selector" m)) = Some (Some el) ->
        type_attribute (snd el) = "radio" ->
        let v := lowered (normalize b k (get "value" m)) in
        name (snd el) = ""
        \/ pick_radio (doc p) (radio_group_of (doc p) (sanitize (name (snd el)))) v = None ->
        truthy_token v = false ->
        apply_one b m t p = (p, Normal (skip t))).
Proof.
  split; [|split].
  - intros ms t p p' o H. destruct (apply_all_effects _ _ _ _ _ H) as (xs & -> & F).
    exists xs. split; [reflexivity|]. intros j Hj.
    rewrite Forall_forall in F. apply list_elem_of_In in Hj.
    apply (F _ Hj).
  - intros m k t p el p' o Hk Hs Hq Ht.
    rewrite (apply_one_resolved _ _ _ _ _ Hk Hs Hq), (apply_to_radio _ _ _ _ Ht).
    apply adds_apply_radio.
  - intros m k t p el Hk Hs Hq Ht v Hg Hv.
    rewrite (apply_one_resolved _ _ _ _ _ Hk Hs Hq), (apply_to_radio _ _ _ _ Ht).
    apply apply_radio_no_match; assumption.
Qed.


(** *** The select branch *)

Lemma deselect_all_run i opts : forall p,
  deselect_all i opts p
  = (Page (replay (deselections i opts) (doc p)) (trace p ++ deselections i opts),
     Normal tt).
Proof.
  induction opts as [|o r IH]; intros p; simpl.
  - unfold ret. destruct p. simpl. rewrite app_nil_r. reflexivity.
  - unfold bind, write. rewrite IH. simpl. rewrite <- app_assoc. reflexivity.
Qed.

Lemma select_wanted_run i opts ws : forall any p,
  select_wanted i opts ws any p
  = (Page (replay (selections i opts ws) (doc p)) (trace p ++ selections i opts ws),
     Normal (any || any_resolved opts ws)).
Proof.
  induction ws as [|w r IH]; intros any p; simpl.
  - unfold ret. destruct p. simpl. rewrite app_nil_r, orb_false_r. reflexivity.
  - destruct (resolveOne opts w) as [o|].
    + unfold bind, write. rewrite IH. simpl. rewrite <- app_assoc, orb_true_r.
      reflexivity.
    + rewrite IH. reflexivity.
Qed.

Lemma replay_events i d : replay (events i) d = d.
Proof. reflexivity. Qed.

(** What a multiple select does with tokens [w0 :: ws]. *)
Lemma apply_select_multiple el val t p w0 ws :
  wanted val = w0 :: ws -> multiple (snd el) = true ->
  let i := fst el in
  let opts := indexed_options (snd el) in
  let any := any_resolved opts (w0 :: ws) in
  let xs := (deselections i opts ++ selections i opts (w0 :: ws)
             ++ (if any then events i else []))%list in
  apply_select el val t p
  = (Page (replay xs (doc p)) (trace p ++ xs),
     Normal (if any then update t else skip t)).
Proof.
  intros Hw Hm i opts any xs. unfold apply_select. rewrite Hw, Hm.
  unfold bind. rewrite deselect_all_run, select_wanted_run.
  cbn [orb doc trace]. fold i opts any. unfold xs. rewrite !replay_app.
  destruct any.
  - unfold fire, bind, write, ret, run. cbn [doc trace perform].
    rewrite replay_events, <- !app_assoc. reflexivity.
  - unfold ret. cbn [replay fold_left]. rewrite app_nil_r, <- !app_assoc. reflexivity.
Qed.












End Applicator.
(** ** The properties on concrete pages *)

Section ApplicatorExamples.

Import JS CSS DOM Content Spec.








(** A radio mapping whose value names no member of the group and is no
    truthy word: skipped, nothing written. *)
Lemma radios_are_never_unchecked_witness :
  apply_one plain_browser
            (mapping ("input[name=" ++ quote "sex" ++ "]:nth-of-type(2)") "radio" "other")
            (Tally 0 0) (Page signup_page [])
  = (Page signup_page [], Normal (Tally 0 1)).
Proof.
  assert (Q : querySelector plain_browser signup_page
                ("input[name=" ++ quote "sex" ++ "]:nth-of-type(2)")
              = Some (Some (node_at signup_page 3))) by reflexivity.
  apply (proj2 (proj2 (radios_are_never_unchecked plain_browser))
           (mapping ("input[name=" ++ quote "sex" ++ "]:nth-of-type(2)") "radio" "other")
           "radio" (Tally 0 0) (Page signup_page []) (node_at signup_page 3)
           eq_refl eq_refl Q eq_refl).
  - right. reflexivity.
  - reflexivity.
Defined.

End ApplicatorExamples.

(** ** The selector builder: names, labels and paths *)

Section MoreSelectors.
Import JS CSS DOM Content Spec.
Variable b : browser.

Lemma plain_aria x :
  plain_ident ("aria-label" ++ String "=" x) = Some ("aria-label", String "=" x).
Proof. reflexivity. Qed.

Lemma query_attribute_group d t a v :
  (forall y, plain_ident (t ++ String "[" y) = Some (t, String "[" y)) ->
  (forall y, plain_ident (a ++ String "=" y) = Some (a, String "=" y)) ->
  toLowerCase t = t -> toLowerCase a = a ->
  existsb (String.eqb a) case_insensitive_attributes = false ->
  querySelectorAll b d (attribute_selector t a v)
  = Some (attribute_group d t a (sanitize v)).
Proof.
  intros Ht Ha Lt La Hc.
  change (attribute_selector t a v)
    with (t ++ String "[" (a ++ String "=" (quote (escape v) ++ "]"))).
  rewrite (query_parsed b d _ _ (parse_attribute_selector t a v Ht Ha)).
  f_equal. unfold attribute_group. apply filter_ext_nodes. intros i e He.
  unfold matches. simpl. rewrite He. cbn [existsb].
  unfold matches_compound. cbn [tag parts forallb matches_simple].
  rewrite Lt, La, Hc, orb_false_r, andb_true_r, (String.eqb_sym t). reflexivity.
Qed.

Lemma control_tag_plain t :
  control_tag t ->
  (forall y, plain_ident (t ++ String "[" y) = Some (t, String "[" y))
  /\ toLowerCase t = t.
Proof. intros [-> | [-> | ->]]; split; reflexivity. Qed.

Lemma query_control_group d t a v :
  control_tag t -> a = "name" \/ a = "aria-label" ->
  querySelectorAll b d (attribute_selector t a v)
  = Some (attribute_group d t a (sanitize v)).
Proof.
  intros Ht Ha. destruct (control_tag_plain t Ht) as [P L].
  destruct Ha as [-> | ->]; apply query_attribute_group; auto; reflexivity.
Qed.

Lemma in_attribute_group d t a v x :
  In x (attribute_group d t a v)
  <-> In x (nodes d) /\ localName (snd x) = t /\ getAttribute a (snd x) = Some v.
Proof.
  unfold attribute_group. rewrite filter_In, andb_true_iff, String.eqb_eq.
  destruct (getAttribute a (snd x)) as [w|].
  - rewrite String.eqb_eq. intuition congruence.
  - intuition congruence.
Qed.

Lemma attribute_group_first d t a v el :
  In el (nodes d) -> localName (snd el) = t -> getAttribute a (snd el) = Some v ->
  (forall x, In x (nodes d) -> localName (snd x) = t ->
             getAttribute a (snd x) = Some v -> fst x = fst el) ->
  head (attribute_group d t a v) = Some el.
Proof.
  intros Hin Ht Ha Hu. apply first_match; [exact Hin| |].
  - rewrite Ht, Ha, !String.eqb_refl. reflexivity.
  - intros x Hx Hp.
    assert (G : In x (attribute_group d t a v)) by (apply filter_In; auto).
    apply in_attribute_group in G. destruct G as (_ & G1 & G2). auto.
Qed.

Lemma no_usable_attribute a e :
  attribute_or_empty a e = "" ->
  getAttribute a e = None \/ getAttribute a e = Some "".
Proof.
  unfold attribute_or_empty. destruct (getAttribute a e) as [v|]; [|auto].
  intros ->. auto.
Qed.

(** X1.  A control without usable [id] whose [name] is not empty and whose
    type is neither [radio] nor [checkbox] gets the selector
    [tag[name="..."]] with the name escaped.  Whatever characters the name
    holds, that selector is read as one attribute test on that tag, and
    [querySelector] answers with the first element of the page that has the
    tag and the name (U+0000 read back as U+FFFD); it is the control itself
    when no other element has its tag and name and the name has no U+0000. *)
Theorem name_selector d el n :
  control_tag (localName (snd el)) ->
  attribute_or_empty "id" (snd el) = "" ->
  getAttribute "name" (snd el) = Some n -> n <> "" ->
  ~ In (type_attribute (snd el)) ["radio"; "checkbox"] ->
  let sel := attribute_selector (localName (snd el)) "name" n in
  let group := attribute_group d (localName (snd el)) "name" (sanitize n) in
  buildSelector b d el = Normal sel
  /\ querySelector b d sel = Some (head group)
  /\ (In el (nodes d) -> has_nul n = false ->
      (forall x, In x (nodes d) -> localName (snd x) = localName (snd el) ->
                 getAttribute "name" (snd x) = Some n -> fst x = fst el) ->
      querySelector b d sel = Some (Some el)).
Proof.
  intros Ht Hid Hn Hne Hty sel group.
  assert (Q : querySelector b d sel = Some (head group)).
  { unfold querySelector, sel. rewrite query_control_group by auto. reflexivity. }
  split; [|split; [exact Q|]].
  - unfold buildSelector.
    destruct (no_usable_attribute "id" _ Hid) as [-> | ->]; cbv iota; cbn [String.eqb];
      rewrite Hn.
    all: destruct (String.eqb_spec n ""); [contradiction|];
      fold (type_attribute (snd el));
      (destruct (String.eqb_spec (type_attribute (snd el)) "radio") as [R|_];
        [exfalso; apply Hty; rewrite R; simpl; tauto|]);
      (destruct (String.eqb_spec (type_attribute (snd el)) "checkbox") as [R|_];
        [exfalso; apply Hty; rewrite R; simpl; tauto|]);
      reflexivity.
  - intros Hin Hnul Hu. rewrite Q. f_equal. unfold group.
    rewrite (sanitize_without_nul _ Hnul). apply attribute_group_first; auto.
Qed.

(** X2.  A control without usable [id] and [name] whose [aria-label] is not
    empty gets the selector [tag[aria-label="..."]]; [querySelector] on it
    answers with the first element of the page that has the tag and the
    label, which is the control itself when no other element has both and
    the label has no U+0000. *)
Theorem aria_label_selector d el v :
  control_tag (localName (snd el)) ->
  attribute_or_empty "id" (snd el) = "" ->
  attribute_or_empty "name" (snd el) = "" ->
  getAttribute "aria-label" (snd el) = Some v -> v <> "" ->
  let sel := attribute_selector (localName (snd el)) "aria-label" v in
  let group := attribute_group d (localName (snd el)) "aria-label" (sanitize v) in
  buildSelector b d el = Normal sel
  /\ querySelector b d sel = Some (head group)
  /\ (In el (nodes d) -> has_nul v = false ->
      (forall x, In x (nodes d) -> localName (snd x) = localName (snd el) ->
                 getAttribute "aria-label" (snd x) = Some v -> fst x = fst el) ->
      querySelector b d sel = Some (Some el)).
Proof.
  intros Ht Hid Hn Ha Hne sel group.
  assert (Q : querySelector b d sel = Some (head group)).
  { unfold querySelector, sel. rewrite query_control_group by auto. reflexivity. }
  split; [|split; [exact Q|]].
  - unfold buildSelector.
    destruct (no_usable_attribute "id" _ Hid) as [-> | ->];
      destruct (no_usable_attribute "name" _ Hn) as [-> | ->];
      cbv iota; cbn [String.eqb]; rewrite Ha;
      (destruct (String.eqb_spec v ""); [contradiction|]); reflexivity.
  - intros Hin Hnul Hu. rewrite Q. f_equal. unfold group.
    rewrite (sanitize_without_nul _ Hnul). apply attribute_group_first; auto.
Qed.


End MoreSelectors.


(** *** The path of the last rule *)

Section Paths.
Import JS CSS DOM Content Spec.
Variable b : browser.

Lemma indexOf_filter_combine (Q : node -> bool) (l : list element) : forall k i e,
  In (i, e) (combine (seq k (length l)) l) -> Q (i, e) = true ->
  indexOf (List.filter Q (combine (seq k (length l)) l)) (i, e)
  = Z.of_nat (length (List.filter
                        (fun j => match l !! (j - k) with
                                  | Some x => Q (j, x)
                                  | None => false
                                  end)
                        (seq k (i - k)))).
Proof.
  induction l as [|x l IH]; intros k i e Hin HQ; [destruct Hin|].
  pose proof (proj1 (combine_seq_In (x :: l) k i e) Hin) as [Hk Hl].
  simpl combine. simpl List.filter at 1.
  destruct (decide (i = k)) as [->|Hne].
  - replace (k - k) with 0 in * by lia. simpl in Hl. injection Hl as ->.
    rewrite HQ. simpl. rewrite Nat.eqb_refl. reflexivity.
  - assert (Hin' : In (i, e) (combine (seq (S k) (length l)) l)).
    { destruct Hin as [[= -> _]|H]; [contradiction|exact H]. }
    specialize (IH (S k) i e Hin' HQ).
    replace (i - k) with (S (i - S k)) by lia. simpl seq. simpl List.filter.
    replace (k - k) with 0 by lia. simpl lookup.
    assert (E : List.filter
                  (fun j => match (x :: l) !! (j - k) with
                            | Some x0 => Q (j, x0)
                            | None => false
                            end) (seq (S k) (i - S k))
                = List.filter
                    (fun j => match l !! (j - S k) with
                              | Some x0 => Q (j, x0)
                              | None => false
                              end) (seq (S k) (i - S k))).
    { apply filter_ext_in. intros j Hj. apply in_seq in Hj.
      replace (j - k) with (S (j - S k)) by lia. reflexivity. }
    rewrite E. destruct (Q (k, x)); simpl.
    + destruct (Nat.eqb_spec k i); [lia|]. rewrite IH.
      destruct (Z.ltb_spec (Z.of_nat (length (List.filter
                  (fun j => match l !! (j - S k) with
                            | Some x0 => Q (j, x0)
                            | None => false
                            end) (seq (S k) (i - S k))))) 0); lia.
    + exact IH.
Qed.

(** The index among the children of the parent that have the same tag is the
    count of earlier siblings with that tag. *)
Lemma sibling_index (d : document) i e pn :
  In (i, e) (nodes d) -> parent_node d e = Some pn ->
  indexOf (List.filter (fun x => String.eqb (tagName (snd x)) (tagName e))
                       (children d (fst pn))) (i, e)
  = Z.of_nat (same_type_before d i).
Proof.
  intros Hin Hp. unfold parent_node in Hp.
  destruct (parentElement e) as [p|] eqn:Ep; [|discriminate].
  destruct (d !! p) as [pe|]; [|discriminate]. injection Hp as <-. simpl fst.
  unfold children. rewrite filter_twice. unfold nodes, positions.
  rewrite indexOf_filter_combine; [|exact Hin|].
  2:{ simpl. rewrite Ep, Nat.eqb_refl, String.eqb_refl. reflexivity. }
  unfold same_type_before. rewrite (proj1 (nodes_lookup d i e) Hin). do 2 f_equal.
  replace (i - 0) with i by lia. apply filter_ext. intros j.
  replace (j - 0) with j by lia. destruct (d !! j) as [x|]; [|reflexivity].
  simpl. rewrite Ep, andb_comm. destruct (parentElement x); reflexivity.
Qed.

Lemma parent_node_In (d : document) e pn :
  parent_node d e = Some pn -> In pn (nodes d).
Proof.
  unfold parent_node. destruct (parentElement e) as [p|]; [|discriminate].
  destruct (d !! p) as [pe|] eqn:E; [|discriminate]. intros [= <-].
  apply nodes_lookup. exact E.
Qed.

Lemma path_from_S k d form cur path :
  path_from (S k) d form cur path
  = if match form with Some f => Nat.eqb (fst f) (fst cur) | None => false end
    then path
    else
      let path' :=
        (localName (snd cur) ++ ":nth-of-type("
         ++ print (indexOf
                     match parent_node d (snd cur) with
                     | Some p =>
                         List.filter
                           (fun x => String.eqb (tagName (snd x)) (tagName (snd cur)))
                           (children d (fst p))
                     | None => []
                     end cur + 1) ++ ")") :: path in
      match parent_node d (snd cur) with
      | Some p => path_from k d form p path'
      | None => path'
      end.
Proof. reflexivity. Qed.

Lemma segment_written (d : document) cur :
  In cur (nodes d) ->
  localName (snd cur) ++ ":nth-of-type("
  ++ print (indexOf
              match parent_node d (snd cur) with
              | Some p =>
                  List.filter (fun x => String.eqb (tagName (snd x)) (tagName (snd cur)))
                              (children d (fst p))
              | None => []
              end cur + 1) ++ ")"
  = segment d cur.
Proof.
  intros Hin. unfold segment, level_index.
  destruct (parent_node d (snd cur)) as [pn|] eqn:Ep; [|reflexivity].
  destruct cur as [i e]. cbn [fst snd] in *.
  rewrite (sibling_index d i e pn Hin Ep).
  replace (Z.of_nat (same_type_before d i) + 1)%Z
    with (Z.of_nat (S (same_type_before d i))) by lia.
  reflexivity.
Qed.

(** The loop of the fallback writes one segment per level, outermost first. *)
Lemma path_from_levels d form : forall fuel cur path,
  In cur (nodes d) ->
  path_from fuel d form cur path
  = (List.map (segment d) (rev (climb fuel d form cur)) ++ path)%list.
Proof.
  induction fuel as [|k IH]; intros cur path Hin; [reflexivity|].
  rewrite path_from_S. cbn [climb].
  destruct (match form with Some f => Nat.eqb (fst f) (fst cur) | None => false end);
    [reflexivity|].
  cbv zeta. rewrite (segment_written d cur Hin).
  destruct (parent_node d (snd cur)) as [pn|] eqn:Ep.
  - rewrite IH by (eapply parent_node_In; exact Ep).
    cbn [rev]. rewrite map_app, <- app_assoc. reflexivity.
  - reflexivity.
Qed.

Lemma climb_nodes d form : forall fuel cur,
  In cur (nodes d) -> Forall (fun x => In x (nodes d)) (climb fuel d form cur).
Proof.
  induction fuel as [|k IH]; intros cur Hin; simpl; [constructor|].
  destruct (match form with Some f => Nat.eqb (fst f) (fst cur) | None => false end);
    constructor; [exact Hin|].
  destruct (parent_node d (snd cur)) as [pn|] eqn:Ep; [|constructor].
  apply IH. eapply parent_node_In. exact Ep.
Qed.

(** X3.  For an element of the page without usable [id], [name] and
    [aria-label], inside a form or on a page with a body, [buildSelector]
    returns [form] or [body], a space, and one segment [tag:nth-of-type(k)]
    for the element and each ancestor below that form or body, outermost
    first, joined by [ > ].  In each segment [k] is one more than the number
    of earlier siblings of that tag, so that [:nth-of-type(k)] is true of the
    element the segment was written for; only a segment written for an
    element without parent carries 0. *)
Theorem path_selector d el f :
  In el (nodes d) ->
  anonymous (snd el) = true ->
  enclosure d el = Some f ->
  let levels := rev (climb (S (length d)) d (Some f) el) in
  buildSelector b d el
  = Normal (trim ((if String.eqb (localName (snd f)) "form" then "form" else "body")
                  ++ " " ++ String.concat " > " (List.map (segment d) levels)))
  /\ Forall (fun x =>
               match parent_node d (snd x) with
               | Some _ =>
                   matches_simple d (fst x) (snd x) (NthOfType (level_index d x)) = true
               | None => level_index d x = 0
               end) levels.
Proof.
  intros Hin Ha Hf levels. split.
  - unfold anonymous in Ha. rewrite !andb_true_iff, !String.eqb_eq in Ha.
    destruct Ha as [[Hid Hn] Har].
    unfold buildSelector. unfold enclosure in Hf.
    destruct (no_usable_attribute "id" _ Hid) as [-> | ->];
      destruct (no_usable_attribute "name" _ Hn) as [-> | ->];
      destruct (no_usable_attribute "aria-label" _ Har) as [-> | ->];
      cbv iota; cbn [String.eqb]; rewrite Hf, path_from_levels by exact Hin;
      rewrite app_nil_r; reflexivity.
  - apply Forall_forall. intros x _. unfold level_index.
    destruct (parent_node d (snd x)); [|reflexivity].
    simpl. apply Nat.eqb_refl.
Qed.

End Paths.


(** ** When extraction fails *)

Section ExtractionFailure.
Import JS CSS DOM Content Spec.
Variable b : browser.







End ExtractionFailure.


(** ** The applicator: text, single select and radio *)

Section Branches.
Import JS CSS DOM Content Spec.
Variable b : browser.

Lemma apply_to_text k raw el t :
  localName (snd el) <> "select" ->
  ~ In (type_attribute (snd el)) ["file"; "checkbox"; "radio"] ->
  apply_to b k raw el t = apply_text (fst el) (normalize b k raw) t.
Proof.
  intros Hs Ht. unfold apply_to. fold (type_attribute (snd el)).
  destruct (String.eqb_spec (type_attribute (snd el)) "file") as [E|_];
    [exfalso; apply Ht; rewrite E; simpl; tauto|].
  destruct (String.eqb_spec (type_attribute (snd el)) "checkbox") as [E|_];
    [exfalso; apply Ht; rewrite E; simpl; tauto|].
  destruct (String.eqb_spec (type_attribute (snd el)) "radio") as [E|_];
    [exfalso; apply Ht; rewrite E; simpl; tauto|].
  destruct (String.eqb_spec (localName (snd el)) "select"); [contradiction|reflexivity].
Qed.





Lemma apply_radio_run el val t p :
  apply_radio b el val t p
  = match radio_target (doc p) el (lowered val) with
    | Some j =>
        (Page (alter (with_checked true) j (doc p))
              (trace p ++ [SetChecked j true;
                           DispatchEvent j "input"; DispatchEvent j "change"]),
         Normal (update t))
    | None => (p, Normal (skip t))
    end.
Proof.
  unfold apply_radio, radio_target, bind.
  destruct (negb (String.eqb (name (snd el)) "")).
  - unfold read, query_all. cbv beta. rewrite query_radio_group.
    destruct (pick_radio _ _ _) as [r|].
    + unfold fire, bind, write, ret, run. simpl. rewrite <- !app_assoc. reflexivity.
    + destruct (truthy_token _); [|reflexivity].
      unfold fire, bind, write, ret, run. simpl. rewrite <- !app_assoc. reflexivity.
  - unfold ret at 1. destruct (truthy_token _); [|reflexivity].
    unfold fire, bind, write, ret, run. simpl. rewrite <- !app_assoc. reflexivity.
Qed.



End Branches.


(** ** The applicator: events *)

Section Batches.
Import JS CSS DOM Content Spec.
Variable b : browser.

Lemma dispatched_app xs ys :
  dispatched (xs ++ ys) = (dispatched xs ++ dispatched ys)%list.
Proof. unfold dispatched. apply flat_map_app. Qed.

Lemma announced_app xs ys :
  announced (xs ++ ys) = (announced xs ++ announced ys)%list.
Proof. unfold announced. apply flat_map_app. Qed.

Lemma dispatched_deselections i opts : dispatched (deselections i opts) = [].
Proof. induction opts as [|o r IH]; [reflexivity|exact IH]. Qed.

Lemma dispatched_selections i opts ws : dispatched (selections i opts ws) = [].
Proof.
  induction ws as [|w r IH]; [reflexivity|]. unfold selections. simpl.
  rewrite dispatched_app. fold (selections i opts r). rewrite IH.
  destruct (resolveOne opts w); reflexivity.
Qed.

Lemma silent_turn t p o :
  (forall t', o = Normal t' -> updated t' = updated t) ->
  turn_announces t p (p, o).
Proof.
  intros H. exists [], []. split; [apply page_eta|]. split; [reflexivity|].
  intros t' E. simpl. rewrite (H t' E). lia.
Qed.

Lemma written_turn t p w i :
  dispatched [w] = [] ->
  turn_announces t p
    (Page (perform w (doc p))
          (trace p ++ [w; DispatchEvent i "input"; DispatchEvent i "change"]),
     Normal (update t)).
Proof.
  intros Hw. exists [w; DispatchEvent i "input"; DispatchEvent i "change"], [i].
  split; [reflexivity|]. split.
  - change [w; DispatchEvent i "input"; DispatchEvent i "change"]
      with ([w] ++ events i)%list.
    rewrite dispatched_app, Hw. reflexivity.
  - intros t' [= <-]. simpl. lia.
Qed.

Lemma apply_to_announces kind raw el t p :
  turn_announces t p (apply_to b kind raw el t p).
Proof.
  unfold apply_to.
  destruct (_ =? "file")%string.
  { apply silent_turn. intros t' [= <-]. reflexivity. }
  destruct (_ =? "checkbox")%string.
  { unfold apply_checkbox, fire, bind, write, ret, run. simpl.
    rewrite <- !app_assoc. apply (written_turn t p (SetChecked _ _)). reflexivity. }
  destruct (_ =? "radio")%string.
  { rewrite apply_radio_run. destruct (radio_target _ _ _) as [j|].
    - apply (written_turn t p (SetChecked j true)). reflexivity.
    - apply silent_turn. intros t' [= <-]. reflexivity. }
  destruct (_ =? "select")%string.
  { unfold apply_select.
    destruct (wanted _) as [|w0 ws] eqn:W.
    { apply silent_turn. intros t' [= <-]. reflexivity. }
    destruct (multiple (snd el)) eqn:Hm.
    - pose proof (apply_select_multiple el (normalize b kind raw) t p w0 ws W Hm) as E.
      cbv zeta in E. unfold apply_select in E. rewrite W, Hm in E. rewrite E. clear E.
      destruct (any_resolved _ _).
      + eexists _, [fst el]. split; [reflexivity|]. split.
        * rewrite !dispatched_app, dispatched_deselections, dispatched_selections.
          reflexivity.
        * intros t' [= <-]. simpl. lia.
      + eexists _, []. split; [reflexivity|]. split.
        * rewrite !dispatched_app, dispatched_deselections, dispatched_selections.
          reflexivity.
        * intros t' [= <-]. simpl. lia.
    - destruct (resolveOne _ w0) as [o|].
      + unfold fire, bind, write, ret, run. simpl. rewrite <- !app_assoc.
        apply (written_turn t p (SetValue _ _)). reflexivity.
      + apply silent_turn. intros t' [= <-]. reflexivity. }
  unfold apply_text, fire, bind, write, ret, run. simpl.
  rewrite <- !app_assoc. apply (written_turn t p (SetValue _ _)). reflexivity.
Qed.

Lemma apply_one_announces m t p : turn_announces t p (apply_one b m t p).
Proof.
  unfold apply_one, lower_kind, bind.
  destruct (or_else (get "kind" m) (Str ""));
    try (apply silent_turn; discriminate).
  unfold ret at 1.
  destruct (negb (truthy (get "selector" m))).
  { apply silent_turn. intros t' [= <-]. reflexivity. }
  unfold read. destruct (querySelector b (doc p) _) as [[el|]|].
  - apply apply_to_announces.
  - apply silent_turn. intros t' [= <-]. reflexivity.
  - apply silent_turn. intros t' [= <-]. reflexivity.
Qed.

(** X9.  Through a whole batch, completed or cut short by an exception,
    the events fired are pairs, [input] then [change] on the same element,
    and a batch that completes has fired exactly one pair for each mapping it
    counts as updated: a skipped mapping fires nothing. *)
Theorem events_pair_with_updates ms : forall t p,
  exists xs targets,
    fst (apply_all b ms t p) = Page (replay xs (doc p)) (trace p ++ xs)
    /\ dispatched xs = announced targets
    /\ forall t', snd (apply_all b ms t p) = Normal t' ->
                  updated t' = updated t + length targets.
Proof.
  induction ms as [|m r IH]; intros t p.
  - exists [], []. split; [apply page_eta|]. split; [reflexivity|].
    intros t' [= <-]. simpl. lia.
  - simpl. unfold bind.
    destruct (apply_one_announces m t p) as (xs & ts & E1 & D1 & U1).
    destruct (apply_one b m t p) as [p1 [t1|e]]; simpl in E1, U1.
    + destruct (IH t1 p1) as (ys & us & E2 & D2 & U2).
      exists (xs ++ ys)%list, (ts ++ us)%list. split; [|split].
      * rewrite E2, E1. simpl. rewrite replay_app, app_assoc. reflexivity.
      * rewrite dispatched_app, announced_app, D1, D2. reflexivity.
      * intros t' H. rewrite (U2 t' H), (U1 t1 eq_refl), length_app. lia.
    + exists xs, ts. split; [exact E1|]. split; [exact D1|]. discriminate.
Qed.

End Batches.


(** ** The listener: what it leaves alone, and batches gone wrong *)

Section Listener.
Import JS CSS DOM Content Spec.
Variable b : browser.







Lemma apply_one_bad_kind m t p :
  kind_of m = None -> apply_one b m t p = (p, Throw (error b NotAFunction)).
Proof.
  unfold kind_of, apply_one, lower_kind, bind.
  destruct (or_else (get "kind" m) (Str "")); try reflexivity. discriminate.
Qed.

Lemma apply_all_app pre : forall post t p,
  apply_all b (pre ++ post) t p
  = match apply_all b pre t p with
    | (p1, Normal t1) => apply_all b post t1 p1
    | (p1, Throw e) => (p1, Throw e)
    end.
Proof.
  induction pre as [|m r IH]; intros post t p; [reflexivity|].
  simpl. unfold bind. destruct (apply_one b m t p) as [p1 [t1|e]]; [apply IH|reflexivity].
Qed.

(** X13.  A mapping whose [kind] is truthy and not a string stops the
    batch: the mappings before it stay applied, it and those after it are
    not, and the reply carries the TypeError's text and no counters. *)
Theorem bad_kind_aborts_batch pre m post p p1 t1 :
  apply_all b pre (Tally 0 0) p = (p1, Normal t1) ->
  kind_of m = None ->
  apply_all b (pre ++ m :: post) (Tally 0 0) p = (p1, Throw (error b NotAFunction))
  /\ onMessage b (Popup.apply_message (Arr (pre ++ m :: post))) p
     = (p1, Normal (Some (Error (error_text (error b NotAFunction))))).
Proof.
  intros Hpre Hk.
  assert (E : apply_all b (pre ++ m :: post) (Tally 0 0) p
              = (p1, Throw (error b NotAFunction))).
  { rewrite apply_all_app, Hpre. simpl. unfold bind.
    rewrite apply_one_bad_kind by exact Hk. reflexivity. }
  split; [exact E|].
  unfold onMessage, try_catch, listener_body, Popup.apply_message.
  cbn [get assoc String.eqb Ascii.eqb Bool.eqb is_literally or_else truthy iterate].
  simpl. unfold bind. rewrite E. reflexivity.
Qed.

End Listener.


(** ** From a descriptor to a filled control *)

Section RoundTrip.
Import JS CSS DOM Content Spec.
Variable b : browser.

Lemma describe_selector d el f :
  describe b d el = Normal f -> buildSelector b d el = Normal (f_selector f).
Proof.
  unfold describe.
  destruct (buildSelector b d el); [|discriminate].
  destruct (getLabelText b d el); [|discriminate].
  destruct (radio_group b d el); [|discriminate].
  intros [= <-]. reflexivity.
Qed.

Lemma Forall2_In_left {A B : Type} (R : A -> B -> Prop) (l : list A) (l' : list B) x :
  Forall2 R l l' -> In x l -> exists y, In y l' /\ R x y.
Proof.
  induction 1 as [|a c l l' Hac _ IH]; simpl; [tauto|].
  intros [->|Hin]; [eauto|]. destruct (IH Hin) as (y & Hy & Ry). eauto.
Qed.

Lemma apply_text_run i val t p :
  apply_text i val t p
  = (let text := if nullish val then "" else ToString val in
     (Page (alter (with_value text) i (doc p))
           (trace p ++ [SetValue i text; DispatchEvent i "input"; DispatchEvent i "change"]),
      Normal (update t))).
Proof.
  unfold apply_text, fire, bind, write, ret, run. simpl.
  rewrite <- !app_assoc. reflexivity.
Qed.

Lemma kind_of_mapping s k v : kind_of (mapping s k v) = Some (toLowerCase k).
Proof. destruct k; reflexivity. Qed.

(** X12.  Extraction and application fit together: for a fillable control
    with a non-empty [id] without U+0000 that no other element has, the
    descriptor [extractFields] returns for it carries a selector that
    [querySelector] resolves to that control, and, for an [input] or
    [textarea] that is no checkbox or radio, a mapping with that selector, a
    kind other than [multi_select] and the text [v] writes [v] into that
    control and counts as updated. *)
Theorem extracted_selector_fills d el id fs :
  In el (nodes d) ->
  fillable (snd el) = true ->
  getAttribute "id" (snd el) = Some id -> id <> "" -> has_nul id = false ->
  (forall x, In x (nodes d) -> getAttribute "id" (snd x) = Some id -> fst x = fst el) ->
  extractFields b d = Normal fs ->
  exists f,
    In f fs /\ describe b d el = Normal f
    /\ querySelector b d (f_selector f) = Some (Some el)
    /\ (localName (snd el) = "input" \/ localName (snd el) = "textarea" ->
        ~ In (type_attribute (snd el)) ["checkbox"; "radio"] ->
        forall k v t tr,
          toLowerCase k <> "multi_select" ->
          apply_one b (mapping (f_selector f) k v) t (Page d tr)
          = (Page (alter (with_value v) (fst el) d)
                  (tr ++ [SetValue (fst el) v;
                          DispatchEvent (fst el) "input";
                          DispatchEvent (fst el) "change"]),
             Normal (update t))).
Proof.
  intros Hin Hf Hid Hne Hnul Hu He.
  unfold extractFields in He. rewrite candidates_fillable in He.
  apply map_throwing_normal in He.
  destruct (Forall2_In_left _ _ _ el He) as (f & Hfs & Hd).
  { apply filter_In. auto. }
  exists f. split; [exact Hfs|]. split; [exact Hd|].
  assert (Hs : f_selector f = "#" ++ escape id).
  { apply describe_selector in Hd. unfold buildSelector in Hd. rewrite Hid in Hd.
    destruct (String.eqb_spec id ""); [contradiction|]. congruence. }
  assert (Hq : querySelector b d (f_selector f) = Some (Some el)).
  { rewrite Hs. unfold querySelector.
    rewrite (query_id b d id Hne), (sanitize_without_nul _ Hnul). f_equal.
    apply first_match; [exact Hin| |].
    - rewrite Hid. apply String.eqb_refl.
    - intros x Hx Hp. apply Hu; [exact Hx|].
      destruct (getAttribute "id" (snd x)); [|discriminate].
      apply String.eqb_eq in Hp. congruence. }
  split; [exact Hq|].
  intros Htag Hty k v t tr Hk.
  assert (Hfile : type_attribute (snd el) <> "file").
  { intros E. unfold fillable in Hf. rewrite E in Hf.
    rewrite andb_true_iff in Hf. destruct Hf as [_ Hf]. discriminate. }
  rewrite (apply_one_resolved b _ (toLowerCase k) _ _ el);
    [|apply kind_of_mapping| |].
  - rewrite apply_to_text.
    + rewrite apply_text_run, normalize_other_kind by exact Hk. reflexivity.
    + destruct Htag as [-> | ->]; discriminate.
    + simpl. intros [E|[E|[E|[]]]]; [apply Hfile; auto|apply Hty; simpl; auto..].
  - rewrite Hs. reflexivity.
  - exact Hq.
Qed.

End RoundTrip.


(** ** The background worker and the popup *)

Section Worker.
Import JS CSS DOM Content Spec.
Variable b : browser.

Lemma get_plain_mapping m :
  get "selector" (Background.plain_mapping m) = get "selector" m
  /\ get "kind" (Background.plain_mapping m) = get "kind" m
  /\ get "value" (Background.plain_mapping m) = get "value" m.
Proof. repeat split. Qed.

Lemma apply_one_plain_mapping m t p :
  apply_one b (Background.plain_mapping m) t p = apply_one b m t p.
Proof.
  unfold apply_one, lower_kind.
  destruct (get_plain_mapping m) as (-> & -> & ->). reflexivity.
Qed.

Lemma apply_all_plain_mappings ms : forall t p,
  apply_all b (List.map Background.plain_mapping ms) t p = apply_all b ms t p.
Proof.
  induction ms as [|m r IH]; intros t p; [reflexivity|].
  simpl. unfold bind. rewrite apply_one_plain_mapping.
  destruct (apply_one b m t p) as [p1 [t1|e]]; [apply IH|reflexivity].
Qed.

Lemma kept_usable m : Background.kept m = true -> usable (Background.plain_mapping m).
Proof.
  unfold Background.kept, usable. rewrite !andb_true_iff. intros [[_ Hs] Hv].
  destruct (get_plain_mapping m) as (-> & _ & ->). split.
  - destruct (get "selector" m); try discriminate. eauto.
  - destruct (get "value" m); try discriminate; congruence.
Qed.

Lemma mappings_of_usable parsed : Forall usable (Background.mappings parsed).
Proof.
  unfold Background.mappings. destruct (get "mappings" parsed); try constructor.
  apply Forall_forall. intros m Hm. apply list_elem_of_In, in_map_iff in Hm.
  destruct Hm as (x & <- & Hx). apply filter_In in Hx. apply kept_usable. tauto.
Qed.

(** X14.  The mappings [callOpenAI] returns: each has a string for
    selector and a value that is not [undefined]; they are the entries of
    [parsed.mappings] that pass the filter, in order, reduced to the keys
    [selector], [kind] and [value], which changes nothing to what the
    content script does with them; and there are none when
    [parsed.mappings] is no array. *)
Theorem normalized_mappings parsed :
  Forall usable (Background.mappings parsed)
  /\ (forall items, get "mappings" parsed = Arr items ->
      length (Background.mappings parsed) <= length items
      /\ forall t p,
           apply_all b (Background.mappings parsed) t p
           = apply_all b (List.filter Background.kept items) t p)
  /\ ((forall items, get "mappings" parsed <> Arr items) ->
      Background.mappings parsed = []).
Proof.
  split; [apply mappings_of_usable|]. split.
  - intros items E. unfold Background.mappings. rewrite E. split.
    + rewrite length_map. apply filter_length_le.
    + intros t p. apply apply_all_plain_mappings.
  - intros H. unfold Background.mappings.
    destruct (get "mappings" parsed); try reflexivity. exfalso. eapply H. reflexivity.
Qed.

Lemma error_text_failure text : text <> "" -> error_text (Background.failure text) = text.
Proof.
  intros H. unfold error_text, Background.failure. simpl.
  destruct (String.eqb_spec text ""); [contradiction|reflexivity].
Qed.

Lemma error_text_not_empty f : error_text (error b f) <> "".
Proof.
  unfold error_text, error. simpl.
  destruct (String.eqb_spec (message_of b f) "") as [E|E]; [|exact E].
  destruct f; discriminate.
Qed.

Lemma answer_shape data :
  (exists ms, Background.answer b data = Obj [("mappings", Arr ms)]
              /\ Forall usable ms)
  \/ (exists text, Background.answer b data = Obj [("error", Str text)] /\ text <> "").
Proof.
  unfold Background.answer.
  assert (R : forall v,
    (exists ms, match Background.read_answer b v with
                | Normal res => res
                | Throw e => Obj [("error", Str (error_text e))]
                end = Obj [("mappings", Arr ms)] /\ Forall usable ms)
    \/ (exists text, match Background.read_answer b v with
                     | Normal res => res
                     | Throw e => Obj [("error", Str (error_text e))]
                     end = Obj [("error", Str text)] /\ text <> "")).
  { intros v. unfold Background.read_answer. destruct (negb (truthy v)).
    - right. eexists. split; [reflexivity|discriminate].
    - destruct (JSON_parse b (ToString v)) as [parsed|].
      + left. eexists. split; [reflexivity|apply mappings_of_usable].
      + right. eexists. split; [reflexivity|discriminate]. }
  destruct (Background.outText b data) as [v|e] eqn:E; [apply R|].
  right. eexists. split; [reflexivity|].
  unfold Background.outText in E.
  destruct (get "output_text" data) as [| | | |[|c r]| |];
    destruct (get "output" data); try discriminate;
    try (destruct (List.find _ _); discriminate);
    injection E as <-; apply error_text_not_empty.
Qed.

(** X15.  What the popup makes of the background worker's answer to a
    successful response.  The answer is either [{mappings}], each mapping
    usable, and the popup goes on with them unless the list is empty
    ([No mappings returned.]); or [{error}] with a text that is not empty,
    which the popup throws and shows as it is. *)
Theorem popup_reads_answer data :
  (exists ms,
     Background.answer b data = Obj [("mappings", Arr ms)]
     /\ Forall usable ms
     /\ Popup.mappings_of_result (Background.answer b data)
        = match ms with
          | [] => Throw (Background.failure "No mappings returned.")
          | _ :: _ => Normal (Arr ms)
          end)
  \/ (exists text,
        Background.answer b data = Obj [("error", Str text)]
        /\ text <> ""
        /\ Popup.mappings_of_result (Background.answer b data)
           = Throw (Background.failure text)
        /\ error_text (Background.failure text) = text).
Proof.
  destruct (answer_shape data) as [(ms & -> & F)|(text & -> & Hne)].
  - left. exists ms. split; [reflexivity|]. split; [exact F|].
    destruct ms; reflexivity.
  - right. exists text. split; [reflexivity|]. split; [exact Hne|].
    assert (E : Popup.mappings_of_result (Obj [("error", Str text)])
                = Throw (Background.failure text)).
    { unfold Popup.mappings_of_result. simpl.
      destruct (String.eqb_spec text ""); [contradiction|reflexivity]. }
    split; [exact E|]. apply error_text_failure, Hne.
Qed.

Lemma assoc_In {A : Type} k (l : list (string * A)) a :
  assoc k l = Some a -> In (k, a) l.
Proof.
  induction l as [|[k' a'] l IH]; simpl; [discriminate|].
  destruct (String.eqb_spec k' k) as [->|_]; [intros [= ->]; auto|auto].
Qed.

Lemma conforms_string x : conforms 1 Background.string_schema x = true -> exists s, x = Str s.
Proof. destruct x; simpl; try discriminate. eauto. Qed.

Lemma conforms_mapping m :
  conforms 2 (get "items" (get "mappings" (get "properties" Background.buildSchema))) m = true ->
  three_strings m /\ Background.kept m = true.
Proof.
  destruct m as [| | | | | |fields]; try discriminate.
  change (conforms 2 _ (Obj fields))
    with (forallb (fun r => match assoc (ToString r) fields with
                            | Some _ => true
                            | None => false
                            end) [Str "selector"; Str "kind"; Str "value"]
          && forallb (fun kv =>
                        match get (fst kv)
                                  (Obj [ ("selector", Background.string_schema);
                                         ("kind", Background.string_schema);
                                         ("value", Background.string_schema) ]) with
                        | Undefined => false
                        | sub => conforms 1 sub (snd kv)
                        end) fields).
  rewrite andb_true_iff. intros [Hr Hf]. rewrite forallb_forall in Hf.
  cbn [forallb ToString] in Hr. rewrite !andb_true_iff in Hr.
  destruct Hr as (H1 & H2 & H3 & _).
  assert (G : forall key, In key ["selector"; "kind"; "value"] ->
              match assoc key fields with Some _ => true | None => false end = true ->
              exists s, get key (Obj fields) = Str s).
  { intros key Hk Hin. simpl get. destruct (assoc key fields) as [x|] eqn:E; [|discriminate].
    specialize (Hf _ (assoc_In _ _ _ E)). cbn [fst snd] in Hf.
    assert (S : conforms 1 Background.string_schema x = true).
    { simpl in Hk. destruct Hk as [<-|[<-|[<-|[]]]]; exact Hf. }
    apply conforms_string in S. exact S. }
  destruct (G "selector") as [s Hs]; [simpl; auto|exact H1|].
  destruct (G "kind") as [k Hk]; [simpl; auto|exact H2|].
  destruct (G "value") as [v Hv]; [simpl; auto|exact H3|].
  split; [exists s, k, v; auto|].
  unfold Background.kept. rewrite Hs, Hv. reflexivity.
Qed.

Lemma filter_all {A : Type} (P : A -> bool) (l : list A) :
  Forall (fun x => P x = true) l -> List.filter P l = l.
Proof.
  induction 1 as [|x l Hx _ IH]; simpl; [reflexivity|]. rewrite Hx, IH. reflexivity.
Qed.

(** X16.  An answer that is valid against [buildSchema] loses nothing in
    the normalization: [mappings] is an array of objects whose [selector],
    [kind] and [value] are strings, every one of them passes the filter, and
    every mapping handed to the content script has a string for kind. *)
Theorem schema_valid_answer_is_kept parsed :
  conforms 4 Background.buildSchema parsed = true ->
  exists items,
    get "mappings" parsed = Arr items
    /\ Forall three_strings items
    /\ Background.mappings parsed = List.map Background.plain_mapping items
    /\ Forall (fun m => kind_of m <> None) (Background.mappings parsed).
Proof.
  destruct parsed as [| | | | | |fields]; try discriminate.
  change (conforms 4 Background.buildSchema (Obj fields))
    with (forallb (fun r => match assoc (ToString r) fields with
                            | Some _ => true
                            | None => false
                            end) [Str "mappings"]
          && forallb (fun kv =>
                        match get (fst kv) (get "properties" Background.buildSchema) with
                        | Undefined => false
                        | sub => conforms 3 sub (snd kv)
                        end) fields).
  rewrite andb_true_iff. intros [Hr Hf]. rewrite forallb_forall in Hf.
  cbn [forallb ToString] in Hr. rewrite andb_true_r in Hr.
  destruct (assoc "mappings" fields) as [x|] eqn:E; [|discriminate].
  specialize (Hf _ (assoc_In _ _ _ E)). cbn [fst snd] in Hf.
  change (conforms 3 (get "mappings" (get "properties" Background.buildSchema)) x = true)
    in Hf.
  destruct x as [| | | | |items|]; try discriminate.
  change (forallb (conforms 2 (get "items" (get "mappings"
            (get "properties" Background.buildSchema)))) items = true) in Hf.
  rewrite forallb_forall in Hf.
  assert (F : Forall (fun m => three_strings m /\ Background.kept m = true) items).
  { apply Forall_forall. intros m Hm. apply conforms_mapping, Hf, list_elem_of_In, Hm. }
  exists items. split; [simpl; rewrite E; reflexivity|].
  split; [eapply Forall_impl; [exact F|]; simpl; tauto|].
  assert (M : Background.mappings (Obj fields) = List.map Background.plain_mapping items).
  { unfold Background.mappings. simpl get. rewrite E. f_equal. apply filter_all.
    eapply Forall_impl; [exact F|]. simpl; tauto. }
  split; [exact M|]. rewrite M. apply Forall_forall. intros m Hm.
  apply list_elem_of_In, in_map_iff in Hm. destruct Hm as (x & <- & Hx).
  rewrite Forall_forall in F. destruct (F x (proj2 (list_elem_of_In _ _) Hx)) as [(s & k & v & _ & Hk & _) _].
  unfold kind_of. destruct (get_plain_mapping x) as (_ & -> & _). rewrite Hk.
  unfold or_else. destruct (truthy (Str k)); discriminate.
Qed.

End Worker.


(** *** The document sent to the model *)

Section Documents.
Import JS CSS DOM Content Spec.
Variable b : browser.







(** X18.  Without a [docfilename] among its arguments, [callOpenAI]
    declares the document as [application/pdf] under the file name
    [document].  The popup sends the file name under the key [docFilename]:
    so the request built from the popup's message is always of that kind,
    whatever the name of the chosen file. *)
Theorem document_is_sent_as_pdf :
  (forall args,
     get "docfilename" args = Undefined ->
     Background.input_file b args
     = Normal (Obj [ ("type", Str "input_file");
                     ("filename", Str "document");
                     ("file_data",
                      Str ("data:application/pdf;base64,"
                           ++ ToString (get "docBase64" args))) ]))
  /\ (forall apiKey docBase64 fileName pageUrl fields shot rules,
        let args :=
          Background.call_arguments apiKey
            (Popup.map_fields_message docBase64 fileName pageUrl fields shot rules) in
        get "docFilename" args = or_else fileName (Str "document")
        /\ get "docfilename" args = Undefined
        /\ Background.input_file b args
           = Normal (Obj [ ("type", Str "input_file");
                           ("filename", Str "document");
                           ("file_data",
                            Str ("data:application/pdf;base64,"
                                 ++ ToString docBase64)) ])).
Proof.
  split.
  - intros args H. unfold Background.input_file, Background.ext. rewrite H. reflexivity.
  - intros apiKey docBase64 fileName pageUrl fields shot rules args.
    split; [reflexivity|]. split; reflexivity.
Qed.

Lemma indexOf_char_absent c s : occurs c s = false -> Popup.indexOf_char c s = (-1)%Z.
Proof.
  induction s as [|a r IH]; simpl; [reflexivity|].
  intros H. apply orb_false_iff in H. destruct H as [H1 H2].
  rewrite H1, (IH H2). reflexivity.
Qed.

Lemma indexOf_char_first c head : forall tail,
  occurs c head = false ->
  Popup.indexOf_char c (head ++ String c tail) = Z.of_nat (String.length head).
Proof.
  induction head as [|a r IH]; intros tail; simpl.
  - rewrite Ascii.eqb_refl. reflexivity.
  - intros H. apply orb_false_iff in H. destruct H as [H1 H2].
    rewrite H1, (IH tail H2).
    destruct (Z.ltb_spec (Z.of_nat (String.length r)) 0); lia.
Qed.

Lemma slice_from_append head tail :
  Popup.slice_from (String.length head) (head ++ tail) = tail.
Proof. induction head as [|a r IH]; simpl; [destruct tail; reflexivity|exact IH]. Qed.

Lemma readFileAsBase64_text head payload :
  occurs "," head = false ->
  Popup.readFileAsBase64 (Str (head ++ String "," payload)) = payload.
Proof.
  intros H. unfold Popup.readFileAsBase64.
  replace (or_else (Str (head ++ String "," payload)) (Str ""))
    with (Str (head ++ String "," payload)) by (destruct head; reflexivity).
  cbn [ToString]. rewrite (indexOf_char_first _ _ payload H).
  destruct (Z.geb_spec (Z.of_nat (String.length head)) 0); [|lia].
  replace (Z.to_nat (Z.of_nat (String.length head) + 1)) with (S (String.length head)) by lia.
  replace (head ++ String "," payload) with ((head ++ ",") ++ payload)
    by (rewrite append_assoc; reflexivity).
  replace (S (String.length head)) with (String.length (head ++ ","))
    by (rewrite length_append; simpl; lia).
  apply slice_from_append.
Qed.

(** X19.  [readFileAsBase64] resolves to what follows the first comma of
    the reader's result, to the whole result when it has no comma, and to
    the empty string for no result; in particular it gives back the payload
    of the data URLs [callOpenAI] builds. *)
Theorem readFileAsBase64_payload head payload :
  occurs "," head = false ->
  Popup.readFileAsBase64 (Str (head ++ String "," payload)) = payload
  /\ Popup.readFileAsBase64 (Str head) = head
  /\ Popup.readFileAsBase64 Null = ""
  /\ forall ext,
       Popup.readFileAsBase64
         (Str ("data:" ++ Background.mime ext ++ ";base64," ++ payload))
       = payload.
Proof.
  intros H. split; [apply readFileAsBase64_text, H|]. split; [|split; [reflexivity|]].
  - unfold Popup.readFileAsBase64.
    replace (ToString (or_else (Str head) (Str ""))) with head by (destruct head; reflexivity).
    rewrite (indexOf_char_absent _ _ H). reflexivity.
  - intros ext.
    replace ("data:" ++ Background.mime ext ++ ";base64," ++ payload)
      with (("data:" ++ Background.mime ext ++ ";base64") ++ String "," payload).
    + apply readFileAsBase64_text. unfold Background.mime.
      destruct (String.eqb ext "doc"); [reflexivity|].
      destruct (String.eqb ext "docx"); reflexivity.
    + unfold Background.mime.
      destruct (String.eqb ext "doc"); [reflexivity|].
      destruct (String.eqb ext "docx"); reflexivity.
Qed.

End Documents.


(** *** The content script's replies in the popup *)

Section Replies.
Import JS CSS DOM Content Spec.
Variable b : browser.

(** X20.  The reply to [EXTRACT_FORM_FIELDS] as the popup reads it:
    extraction leaves the page alone, and the popup goes on with the
    descriptors when there is at least one; an extraction that threw and a
    page without fillable control both end in
    [No fillable fields found on page.]. *)
Theorem extraction_reply_in_popup p :
  exists r,
    onMessage b extract_message p = (p, Normal r)
    /\ Popup.fields_of r
       = match extractFields b (doc p) with
         | Normal (f :: fs) => Normal (f :: fs)
         | _ => Throw (Background.failure "No fillable fields found on page.")
         end.
Proof.
  unfold onMessage, try_catch, listener_body, extract_message.
  cbn [get assoc String.eqb Ascii.eqb Bool.eqb is_literally]. simpl.
  unfold bind, read, ret.
  destruct (extractFields b (doc p)) as [[|f fs]|e]; eexists; split; reflexivity.
Qed.

Lemma apply_to_returns kind raw el t p :
  exists p' t', apply_to b kind raw el t p = (p', Normal t').
Proof.
  unfold apply_to.
  destruct (_ =? "file")%string; [unfold ret; eauto|].
  destruct (_ =? "checkbox")%string; [unfold apply_checkbox, fire, bind, write, ret; eauto|].
  destruct (_ =? "radio")%string.
  { rewrite apply_radio_run. destruct (radio_target _ _ _); eauto. }
  destruct (_ =? "select")%string; [|rewrite apply_text_run; eauto].
  unfold apply_select. destruct (wanted _) as [|w0 ws]; [unfold ret; eauto|].
  destruct (multiple (snd el)).
  - unfold bind. rewrite deselect_all_run, select_wanted_run.
    destruct (_ || _); unfold fire, bind, write, ret; eauto.
  - destruct (resolveOne _ w0); unfold fire, bind, write, ret; eauto.
Qed.

Lemma apply_one_throws m t p p' e :
  apply_one b m t p = (p', Throw e) -> e = error b NotAFunction.
Proof.
  unfold apply_one, lower_kind, bind.
  destruct (or_else (get "kind" m) (Str "")); try (unfold raise; congruence).
  unfold ret at 1. destruct (negb (truthy (get "selector" m))); [discriminate|].
  unfold read. destruct (querySelector b (doc p) _) as [[el|]|]; try discriminate.
  destruct (apply_to_returns (toLowerCase s) (get "value" m) el t p) as (p1 & t1 & E).
  rewrite E. discriminate.
Qed.

Lemma apply_all_throws ms : forall t p p' e,
  apply_all b ms t p = (p', Throw e) -> e = error b NotAFunction.
Proof.
  induction ms as [|m r IH]; intros t p p' e; simpl; [discriminate|].
  unfold bind. destruct (apply_one b m t p) as [p1 [t1|e1]] eqn:E.
  - apply IH.
  - intros [= <- <-]. eapply apply_one_throws. exact E.
Qed.

(** X21.  The reply to [APPLY_MAPPINGS] as the popup reads it: for a batch
    that completes the status line is [Done. Updated: u, Skipped: s] with the
    batch's counters, which add up to the number of mappings sent; for a
    batch cut short by an exception, the popup throws and shows the
    exception's text. *)
Theorem status_after_fill ms p :
  exists p' r,
    onMessage b (Popup.apply_message (Arr ms)) p = (p', Normal r)
    /\ match snd (apply_all b ms (Tally 0 0) p) with
       | Normal t =>
           Popup.status_of r
           = Normal ("Done. Updated: " ++ Popup.counter (updated t)
                     ++ ", Skipped: " ++ Popup.counter (skipped t))
           /\ updated t + skipped t = length ms
       | Throw e =>
           Popup.status_of r = Throw (Background.failure (error_text e))
           /\ Popup.shown (Popup.status_of r) = error_text e
       end.
Proof.
  unfold onMessage, try_catch, listener_body, Popup.apply_message.
  cbn [get assoc String.eqb Ascii.eqb Bool.eqb is_literally or_else truthy iterate].
  simpl. unfold bind.
  destruct (apply_all b ms (Tally 0 0) p) as [p1 [t1|e]] eqn:E.
  - unfold ret. do 2 eexists. split; [reflexivity|]. simpl. split; [reflexivity|].
    pose proof (apply_all_counts b _ _ _ _ _ E) as [C _]. simpl in C. lia.
  - unfold ret. do 2 eexists. split; [reflexivity|]. cbn [snd].
    apply apply_all_throws in E. subst e.
    assert (N : error_text (error b NotAFunction) <> "") by apply error_text_not_empty.
    unfold Popup.status_of.
    destruct (String.eqb_spec (error_text (error b NotAFunction)) ""); [contradiction|].
    split; [reflexivity|]. apply error_text_failure, N.
Qed.

End Replies.


(** ** The generic setter *)

Section Setter.
Import JS CSS DOM Content Spec.
Variable b : browser.








End Setter.


(** ** Selectors that tell controls apart *)

Section Distinct.
Import JS CSS DOM Content Spec.
Variable b : browser.

Lemma buildSelector_by_name d el n :
  control_tag (localName (snd el)) ->
  attribute_or_empty "id" (snd el) = "" ->
  getAttribute "name" (snd el) = Some n -> n <> "" ->
  ~ In (type_attribute (snd el)) ["radio"; "checkbox"] ->
  buildSelector b d el = Normal (attribute_selector (localName (snd el)) "name" n).
Proof.
  intros Ht Hid Hn Hne Hty. unfold buildSelector.
  destruct (no_usable_attribute "id" _ Hid) as [-> | ->]; cbv iota; cbn [String.eqb];
    rewrite Hn.
  all: destruct (String.eqb_spec n ""); [contradiction|];
    fold (type_attribute (snd el));
    (destruct (String.eqb_spec (type_attribute (snd el)) "radio") as [R|_];
      [exfalso; apply Hty; rewrite R; simpl; tauto|]);
    (destruct (String.eqb_spec (type_attribute (snd el)) "checkbox") as [R|_];
      [exfalso; apply Hty; rewrite R; simpl; tauto|]);
    reflexivity.
Qed.

(** X23.  Selectors tell controls apart as far as their ids and names do.
    Two elements with non-empty ids without U+0000 get the same selector
    exactly when the ids are the same; two controls without usable id, named
    and neither radio nor checkbox, get the same selector exactly when they
    have the same tag and the same name; and a selector made from an id is
    never one made from a name. *)
Theorem selectors_tell_apart d el1 el2 :
  (forall id1 id2,
     getAttribute "id" (snd el1) = Some id1 -> getAttribute "id" (snd el2) = Some id2 ->
     id1 <> "" -> id2 <> "" -> has_nul id1 = false -> has_nul id2 = false ->
     (buildSelector b d el1 = buildSelector b d el2 <-> id1 = id2))
  /\ (forall n1 n2,
        control_tag (localName (snd el1)) -> control_tag (localName (snd el2)) ->
        attribute_or_empty "id" (snd el1) = "" -> attribute_or_empty "id" (snd el2) = "" ->
        getAttribute "name" (snd el1) = Some n1 -> getAttribute "name" (snd el2) = Some n2 ->
        n1 <> "" -> n2 <> "" -> has_nul n1 = false -> has_nul n2 = false ->
        ~ In (type_attribute (snd el1)) ["radio"; "checkbox"] ->
        ~ In (type_attribute (snd el2)) ["radio"; "checkbox"] ->
        (buildSelector b d el1 = buildSelector b d el2
         <-> localName (snd el1) = localName (snd el2) /\ n1 = n2))
  /\ (forall id1 n2,
        control_tag (localName (snd el2)) ->
        getAttribute "id" (snd el1) = Some id1 -> id1 <> "" ->
        attribute_or_empty "id" (snd el2) = "" ->
        getAttribute "name" (snd el2) = Some n2 -> n2 <> "" ->
        ~ In (type_attribute (snd el2)) ["radio"; "checkbox"] ->
        buildSelector b d el1 <> buildSelector b d el2).
Proof.
  assert (ById : forall el id, getAttribute "id" (snd el) = Some id -> id <> "" ->
                 buildSelector b d el = Normal ("#" ++ escape id)).
  { intros el id Hid Hne. unfold buildSelector. rewrite Hid.
    destruct (String.eqb_spec id ""); [contradiction|reflexivity]. }
  assert (ByName : forall el n,
            control_tag (localName (snd el)) -> attribute_or_empty "id" (snd el) = "" ->
            getAttribute "name" (snd el) = Some n -> n <> "" ->
            ~ In (type_attribute (snd el)) ["radio"; "checkbox"] ->
            buildSelector b d el = Normal (attribute_selector (localName (snd el)) "name" n)).
  { intros el n. apply buildSelector_by_name. }
  split; [|split].
  - intros id1 id2 H1 H2 N1 N2 Z1 Z2.
    rewrite (ById _ _ H1 N1), (ById _ _ H2 N2). split; [|intros ->; reflexivity].
    intros H. assert (E : "#" ++ escape id1 = "#" ++ escape id2) by congruence.
    pose proof (parse_id_selector id1 N1) as P1.
    pose proof (parse_id_selector id2 N2) as P2.
    rewrite E, P2 in P1. injection P1 as P1.
    rewrite !sanitize_without_nul in P1 by assumption. congruence.
  - intros n1 n2 T1 T2 I1 I2 H1 H2 N1 N2 Z1 Z2 Y1 Y2.
    rewrite (ByName _ _ T1 I1 H1 N1 Y1), (ByName _ _ T2 I2 H2 N2 Y2).
    split; [|intros [-> ->]; reflexivity].
    intros H.
    assert (E : attribute_selector (localName (snd el1)) "name" n1
                = attribute_selector (localName (snd el2)) "name" n2) by congruence.
    pose proof (parse_control_selector _ n1 T1) as P1.
    pose proof (parse_control_selector _ n2 T2) as P2.
    change (localName (snd el1) ++ "[name=" ++ quote (escape n1) ++ "]")
      with (attribute_selector (localName (snd el1)) "name" n1) in P1.
    change (localName (snd el2) ++ "[name=" ++ quote (escape n2) ++ "]")
      with (attribute_selector (localName (snd el2)) "name" n2) in P2.
    rewrite E, P2 in P1. injection P1 as P1 P1'.
    rewrite !sanitize_without_nul in P1' by assumption. auto.
  - intros id1 n2 T2 H1 N1 I2 H2 N2 Y2.
    rewrite (ById _ _ H1 N1), (ByName _ _ T2 I2 H2 N2 Y2). intros H.
    assert (E : "#" ++ escape id1
                = attribute_selector (localName (snd el2)) "name" n2) by congruence.
    pose proof (parse_id_selector id1 N1) as P1.
    pose proof (parse_control_selector _ n2 T2) as P2.
    change (localName (snd el2) ++ "[name=" ++ quote (escape n2) ++ "]")
      with (attribute_selector (localName (snd el2)) "name" n2) in P2.
    rewrite E, P2 in P1. discriminate.
Qed.
End Distinct.


(** ** File inputs are left alone *)

Section FileInputs.
Import JS CSS DOM Content Spec.
Variable b : browser.

Lemma adds_deselect_all_on i opts :
  adds (fun x => target x = i) (deselect_all i opts).
Proof.
  induction opts as [|o r IH]; simpl; [apply adds_ret|].
  apply adds_bind; [apply adds_write; reflexivity|intros _; exact IH].
Qed.

Lemma adds_select_wanted_on i opts ws : forall any,
  adds (fun x => target x = i) (select_wanted i opts ws any).
Proof.
  induction ws as [|w r IH]; intros any; simpl; [apply adds_ret|].
  destruct (resolveOne opts w); [|apply IH].
  apply adds_bind; [apply adds_write; reflexivity|intros _; apply IH].
Qed.

Lemma adds_apply_select_on el val t :
  adds (fun x => target x = fst el) (apply_select el val t).
Proof.
  unfold apply_select. destruct (wanted val) as [|w0 ws]; [apply adds_ret|].
  destruct (multiple (snd el)).
  - apply adds_bind; [apply adds_deselect_all_on|intros _].
    apply adds_bind; [apply adds_select_wanted_on|intros [|]].
    + apply adds_bind; [apply adds_fire; reflexivity|intros _; apply adds_ret].
    + apply adds_ret.
  - destruct (resolveOne _ w0); [|apply adds_ret].
    apply adds_bind; [apply adds_write; reflexivity|intros _].
    apply adds_bind; [apply adds_fire; reflexivity|intros _; apply adds_ret].
Qed.

Lemma radio_target_spared (d : document) el v j :
  d !! fst el = Some (snd el) -> type_attribute (snd el) = "radio" ->
  radio_target d el v = Some j -> spares_files d (SetChecked j true).
Proof.
  intros Hel Ht. unfold radio_target.
  destruct (if negb (String.eqb (name (snd el)) "")
            then pick_radio d (radio_group_of d (sanitize (name (snd el)))) v
            else None) as [r|] eqn:E.
  - intros [= <-]. destruct (negb _); [|discriminate].
    assert (Hr : In r (radio_group_of d (sanitize (name (snd el))))).
    { unfold pick_radio in E. destruct (List.find _ _) as [x|] eqn:F.
      - injection E as <-. apply find_some in F. tauto.
      - apply find_some in E. tauto. }
    unfold radio_group_of in Hr. apply filter_In in Hr. destruct Hr as [Hn Hp].
    rewrite !andb_true_iff, !String.eqb_eq in Hp. destruct Hp as [[_ Hp] _].
    destruct r as [i e]. apply nodes_lookup in Hn.
    exists e. split; [exact Hn|]. simpl in Hp. rewrite Hp. discriminate.
  - destruct (truthy_token v); [|discriminate]. intros [= <-].
    exists (snd el). split; [exact Hel|]. rewrite Ht. discriminate.
Qed.

Lemma apply_to_spares kind raw el t p p' o :
  doc p !! fst el = Some (snd el) ->
  apply_to b kind raw el t p = (p', o) ->
  exists xs, p' = Page (replay xs (doc p)) (trace p ++ xs)
             /\ Forall (spares_files (doc p)) xs.
Proof.
  intros Hel. unfold apply_to. fold (type_attribute (snd el)).
  destruct (String.eqb_spec (type_attribute (snd el)) "file") as [Hf|Hf];
    [apply adds_ret|].
  assert (W : forall c : M tally,
            adds (fun x => target x = fst el) c ->
            c p = (p', o) ->
            exists xs, p' = Page (replay xs (doc p)) (trace p ++ xs)
                       /\ Forall (spares_files (doc p)) xs).
  { intros c Hc H. destruct (Hc _ _ _ H) as (xs & -> & F). exists xs.
    split; [reflexivity|]. eapply Forall_impl; [exact F|].
    intros x Hx. exists (snd el). rewrite Hx. auto. }
  destruct (String.eqb_spec (type_attribute (snd el)) "checkbox") as [_|_].
  { apply W. apply adds_apply_checkbox; reflexivity. }
  destruct (String.eqb_spec (type_attribute (snd el)) "radio") as [Hr|_].
  { rewrite apply_radio_run.
    destruct (radio_target (doc p) el _) as [j|] eqn:E; [|apply adds_ret].
    intros [= <- <-].
    exists [SetChecked j true; DispatchEvent j "input"; DispatchEvent j "change"].
    split; [reflexivity|].
    pose proof (radio_target_spared _ _ _ _ Hel Hr E) as (e & He & Hn).
    repeat (constructor 2; [exists e; split; [exact He|exact Hn]|]). constructor 1. }
  destruct (_ =? "select")%string; [apply W, adds_apply_select_on|].
  apply W. unfold apply_text.
  apply adds_bind; [apply adds_write; reflexivity|intros _].
  apply adds_bind; [apply adds_fire; reflexivity|intros _; apply adds_ret].
Qed.

Lemma apply_one_spares m t p p' o :
  apply_one b m t p = (p', o) ->
  exists xs, p' = Page (replay xs (doc p)) (trace p ++ xs)
             /\ Forall (spares_files (doc p)) xs.
Proof.
  unfold apply_one, lower_kind, bind.
  destruct (or_else (get "kind" m) (Str "")); try (apply adds_raise).
  unfold ret at 1.
  destruct (negb (truthy (get "selector" m))); [apply adds_ret|].
  unfold read. destruct (querySelector b (doc p) _) as [[el|]|] eqn:Q;
    try apply adds_ret.
  apply apply_to_spares. eapply querySelector_node. exact Q.
Qed.

Lemma spares_files_earlier xs d x :
  spares_files (replay xs d) x -> spares_files d x.
Proof.
  intros (e & He & Ht). pose proof (replay_type xs d (target x)) as E.
  rewrite He in E. simpl in E. destruct (d !! target x) as [e0|] eqn:D; [|discriminate].
  exists e0. split; [exact D|]. simpl in E. congruence.
Qed.

Lemma apply_all_spares ms : forall t p p' o,
  apply_all b ms t p = (p', o) ->
  exists xs, p' = Page (replay xs (doc p)) (trace p ++ xs)
             /\ Forall (spares_files (doc p)) xs.
Proof.
  induction ms as [|m r IH]; intros t p p' o; simpl.
  - apply adds_ret.
  - unfold bind. destruct (apply_one b m t p) as [p1 [t1|e]] eqn:E.
    + intros H. destruct (apply_one_spares _ _ _ _ _ E) as (xs & -> & Fx).
      destruct (IH _ _ _ _ H) as (ys & -> & Fy). simpl in *.
      exists (xs ++ ys)%list. rewrite replay_app, app_assoc. split; [reflexivity|].
      apply Forall_app. split; [exact Fx|].
      eapply Forall_impl; [exact Fy|].
      intros x. apply spares_files_earlier.
    + intros [= <- <-]. apply (apply_one_spares _ _ _ _ _ E).
Qed.

Lemma perform_elsewhere x (d : document) j :
  target x <> j -> perform x d !! j = d !! j.
Proof.
  destruct x as [i c|i v|i k c|i ev]; simpl; intros H; try reflexivity;
    apply list_lookup_alter_ne; exact H.
Qed.

Lemma replay_elsewhere xs : forall (d : document) j,
  Forall (fun x => target x <> j) xs -> replay xs d !! j = d !! j.
Proof.
  induction xs as [|x xs IH]; intros d j H; [reflexivity|].
  change (replay (x :: xs) d) with (replay xs (perform x d)).
  inversion H; subst. rewrite IH by assumption. apply perform_elsewhere. assumption.
Qed.

(** X24.  A batch, completed or cut short, never touches a file input:
    every write and every event is on an element whose [type] attribute is
    not [file], the member of a radio group that a radio mapping checks
    included, and every file input of the page is after the batch what it
    was before. *)
Theorem file_inputs_are_never_written ms t p :
  exists xs,
    fst (apply_all b ms t p) = Page (replay xs (doc p)) (trace p ++ xs)
    /\ Forall (spares_files (doc p)) xs
    /\ forall j e, doc p !! j = Some e -> type_attribute e = "file" ->
                   doc (fst (apply_all b ms t p)) !! j = Some e.
Proof.
  destruct (apply_all b ms t p) as [p' o] eqn:E.
  destruct (apply_all_spares _ _ _ _ _ E) as (xs & -> & F).
  exists xs. split; [reflexivity|]. split; [exact F|].
  intros j e He Ht. simpl. rewrite replay_elsewhere; [exact He|].
  eapply Forall_impl; [exact F|]. intros x (e' & He' & Hn) Hj.
  rewrite Hj in He'. congruence.
Qed.

End FileInputs.

(** ** Radio groups in the descriptors *)

Section Descriptors.
Import JS CSS DOM Content Spec.
Variable b : browser.



End Descriptors.


(** ** Filling twice *)

Section Replays.
Import JS CSS DOM Content Spec.









End Replays.


(** *** Pages that read alike *)

Section Readings.
Import JS CSS DOM Content Spec.
Variable b : browser.








(** *** Searching two pages that read alike *)













End Readings.


(** *** The same batch again *)

Section Twice.
Import JS CSS DOM Content Spec.
Variable b : browser.

(** *** Options that read alike *)





(** *** The plan of a turn *)





(** *** Writes that keep the readings *)






(** *** One turn, then a batch, on two pages that read alike *)





End Twice.


(** ** Examples *)

Section MoreExamples.
Import JS CSS DOM Content Spec.

(** The input named [email] of the contact form gets [input[name="email"]],
    which finds it again. *)
Lemma name_selector_witness :
  buildSelector plain_browser contact_page (node_at contact_page 3)
  = Normal (attribute_selector "input" "name" "email")
  /\ querySelector plain_browser contact_page (attribute_selector "input" "name" "email")
     = Some (Some (node_at contact_page 3)).
Proof.
  destruct (name_selector plain_browser contact_page (node_at contact_page 3) "email"
              ltac:(left; reflexivity) eq_refl eq_refl ltac:(discriminate)
              ltac:(vm_compute; intuition discriminate)) as (B & _ & Q).
  split; [exact B|]. apply Q.
  - vm_compute. tauto.
  - reflexivity.
  - intros x Hx. vm_compute in Hx.
    destruct Hx as [<-|[<-|[<-|[<-|[<-|[<-|[<-|[<-|[]]]]]]]]]; vm_compute; congruence.
Defined.

(** The select of the contact form is found again by its [aria-label]. *)
Lemma aria_label_selector_witness :
  buildSelector plain_browser contact_page (node_at contact_page 4)
  = Normal (attribute_selector "select" "aria-label" "Country")
  /\ querySelector plain_browser contact_page
       (attribute_selector "select" "aria-label" "Country")
     = Some (Some (node_at contact_page 4)).
Proof.
  destruct (aria_label_selector plain_browser contact_page (node_at contact_page 4) "Country"
              ltac:(right; right; reflexivity) eq_refl eq_refl eq_refl ltac:(discriminate))
    as (B & _ & Q).
  split; [exact B|]. apply Q.
  - vm_compute. tauto.
  - reflexivity.
  - intros x Hx. vm_compute in Hx.
    destruct Hx as [<-|[<-|[<-|[<-|[<-|[<-|[<-|[<-|[]]]]]]]]]; vm_compute; congruence.
Defined.

(** The second of two bare inputs in the [div] of the form. *)
Lemma path_selector_witness :
  buildSelector plain_browser contact_page (node_at contact_page 7)
  = Normal "form div:nth-of-type(1) > input:nth-of-type(2)".
Proof.
  destruct (path_selector plain_browser contact_page (node_at contact_page 7)
              (node_at contact_page 2) ltac:(vm_compute; tauto) eq_refl eq_refl) as [E _].
  rewrite E. reflexivity.
Defined.





(** The descriptor of [<input id="email">] and a mapping made with its
    selector. *)
Lemma extracted_selector_fills_witness :
  exists f,
    extractFields plain_browser email_page = Normal [f]
    /\ apply_one plain_browser (mapping (f_selector f) "text" "a@b.c") (Tally 0 0)
                 (Page email_page [])
       = (Page (alter (with_value "a@b.c") 2 email_page)
               [SetValue 2 "a@b.c"; DispatchEvent 2 "input"; DispatchEvent 2 "change"],
          Normal (Tally 1 0)).
Proof.
  destruct (extractFields plain_browser email_page) as [fs|e] eqn:E;
    [|vm_compute in E; discriminate].
  destruct (extracted_selector_fills plain_browser email_page (node_at email_page 2)
              "email" fs ltac:(vm_compute; tauto) eq_refl eq_refl ltac:(discriminate)
              eq_refl
              ltac:(intros x Hx; vm_compute in Hx;
                    destruct Hx as [<-|[<-|[<-|[]]]]; vm_compute; congruence)
              E) as (f & Hin & Hd & _ & A).
  exists f. split.
  - vm_compute in E. injection E as <-. vm_compute in Hd. injection Hd as <-. reflexivity.
  - apply (A ltac:(left; reflexivity) ltac:(vm_compute; intuition discriminate)
             "text" "a@b.c" (Tally 0 0) []).
    discriminate.
Defined.

(** A number for kind in the second of three mappings: the first stays
    applied, the third is not reached. *)
Lemma bad_kind_aborts_batch_witness :
  onMessage plain_browser
    (Popup.apply_message
       (Arr [mapping "#name" "text" "Alice"; numeric_kind_mapping;
             mapping "#news" "checkbox" "yes"]))
    (Page signup_page [])
  = (Page (alter (with_value "Alice") 2 signup_page)
          [SetValue 2 "Alice"; DispatchEvent 2 "input"; DispatchEvent 2 "change"],
     Normal (Some (Error "TypeError"))).
Proof.
  exact (proj2 (bad_kind_aborts_batch plain_browser
                  [mapping "#name" "text" "Alice"] numeric_kind_mapping
                  [mapping "#news" "checkbox" "yes"] (Page signup_page [])
                  (Page (alter (with_value "Alice") 2 signup_page)
                        [SetValue 2 "Alice"; DispatchEvent 2 "input";
                         DispatchEvent 2 "change"])
                  (Tally 1 0) eq_refl eq_refl)).
Defined.

(** Two mappings as the schema wants them. *)
Lemma schema_valid_answer_is_kept_witness :
  Background.mappings valid_answer
  = [mapping "#name" "text" "Alice"; mapping "#news" "checkbox" "true"].
Proof.
  destruct (schema_valid_answer_is_kept valid_answer eq_refl)
    as (items & Hi & _ & M & _).
  rewrite M. injection Hi as <-. reflexivity.
Defined.


(** The payload of a data URL. *)
Lemma readFileAsBase64_payload_witness :
  Popup.readFileAsBase64 (Str "data:application/pdf;base64,JVBERi0x") = "JVBERi0x".
Proof.
  exact (proj1 (readFileAsBase64_payload "data:application/pdf;base64" "JVBERi0x" eq_refl)).
Defined.






(** The text input and the select of the sign-up page, told apart by their
    ids. *)
Lemma selectors_tell_apart_witness :
  buildSelector plain_browser signup_page (node_at signup_page 2)
  <> buildSelector plain_browser signup_page (node_at signup_page 5).
Proof.
  intros H.
  apply (proj1 (selectors_tell_apart plain_browser signup_page
                  (node_at signup_page 2) (node_at signup_page 5))
           "name" "country" eq_refl eq_refl ltac:(discriminate) ltac:(discriminate)
           eq_refl eq_refl) in H.
  discriminate.
Defined.

End MoreExamples.
